(** * MIRI / JWST NGC 7469 notebook: pixel scale, region spectra, line overlay
    and emission-line summary table.

    The notebook [MIRI_JWST_NGC7469_Report.ipynb] is a linear script over
    numpy, pandas, astropy and the [regions] package.  Its numbers are IEEE
    binary64 values, so they are embedded as Rocq's primitive [float]s: NaN
    (the notebook's missing marker, [np.nan]) compares false with everything,
    sums and quotients round, and every example below evaluates exactly as
    the Python code does.

    Library calls are embedded by their documented behaviour, quoted where
    the function is introduced.  Python exceptions are values of [result]. *)

From Stdlib Require Import ZArith List Floats String Ascii Lia Bool Uint63.
From Stdlib Require Import DecimalString Permutation.
Import ListNotations.
Set Warnings "-inexact-float".
Open Scope string_scope.
Open Scope list_scope.

(* ================================================================== *)
(** * Part I: the embedding *)
(* ================================================================== *)

(** ** Python results *)

Inductive exn : Type :=
| KeyError (key : string)
| IndexError
| TypeError
| ValueError.

Inductive result (A : Type) : Type :=
| Ok (a : A)
| Raise (e : exn).
Arguments Ok {A} a.
Arguments Raise {A} e.

Definition bind {A B : Type} (r : result A) (k : A -> result B) : result B :=
  match r with
  | Ok a => k a
  | Raise e => Raise e
  end.

Notation "x <- r ;; k" := (bind r (fun x => k))
  (at level 61, r at next level, right associativity).

(** ** Numbers: binary64, NaN the missing marker *)

Definition not_nan (x : float) : bool := negb (is_nan x).

(** Comparison of finite binary64 values by exponent, then mantissa, used
    by the order lemmas. *)

Definition lexcmp (e1 : Z) (m1 : positive) (e2 : Z) (m2 : positive) : comparison :=
  match Z.compare e1 e2 with
  | Lt => Lt
  | Gt => Gt
  | Eq => Pos.compare_cont Eq m1 m2
  end.

(** ** Cell 2: pixel scale *)

(** A FITS header as the ordered list of its numeric cards, and an opened
    file as the list of its named extensions.  [hdr['KEY']] and
    [hdul['NAME']] return the first entry with that name and raise
    [KeyError] when there is none. *)
Definition header : Type := list (string * float).
Definition hdu_list : Type := list (string * header).

Fixpoint getitem {A : Type} (l : list (string * A)) (key : string) : result A :=
  match l with
  | [] => Raise (KeyError key)
  | (k, v) :: rest => if String.eqb key k then Ok v else getitem rest key
  end.

Definition z : float := 0.0163%float.

Section PixelScale.
(** [fun z => cosmo.kpc_proper_per_arcmin(z).to(u.pc/u.arcsec)] of astropy's
    [Planck18] cosmology: the proper transverse distance per arc-second,
    in parsec.  The cosmology is not part of the notebook. *)
Variable pc_proper_per_arcsec : float -> float.

(** The cell returns (prints) [cdelt1] and [pix_scale_pc]. *)
Definition pixel_scale (hdul : hdu_list) : result (float * float) :=
  hdr <- getitem hdul "SCI" ;;
  v <- getitem hdr "CDELT1" ;;
  let cdelt1 := (abs v * 3600)%float in
  let scale := pc_proper_per_arcsec z in
  let pix_scale_pc := (cdelt1 * scale)%float in
  Ok (cdelt1, pix_scale_pc).
End PixelScale.

(** ** Cell 3: spectrum of a region *)

(** One wavelength slice [data_cube[lam]]: rows of pixel values. *)
Definition image : Type := list (list float).

(** [regions.RegionBoundingBox]: pixel columns [ixmin <= x < ixmax] and rows
    [iymin <= y < iymax]. *)
Record BoundingBox : Type := mkBBox {
  ixmin : Z;
  ixmax : Z;
  iymin : Z;
  iymax : Z
}.

(** [regions.RegionMask]: the mask array over the bounding box and the box.
    With [mode='center'] an entry of [data] is 1 ([true]) when the centre of
    the pixel lies inside the region and 0 ([false]) otherwise.  A mask has
    as many rows and columns as its box, and a box of a region has at least
    one row and one column. *)
Record RegionMask : Type := mkMask {
  data : list (list bool);
  bbox : BoundingBox
}.

Definition mask_shape (m : RegionMask) : Z * Z :=
  (iymax (bbox m) - iymin (bbox m), ixmax (bbox m) - ixmin (bbox m))%Z.

Definition image_shape (img : image) : Z * Z :=
  (Z.of_nat (List.length img), Z.of_nat (List.length (hd [] img))).

(** [img[y, x]] for an index pair inside the array. *)
Definition pixel (img : image) (y x : Z) : option float :=
  if ((y <? 0) || (x <? 0))%Z then None
  else match nth_error img (Z.to_nat y) with
       | Some r => nth_error r (Z.to_nat x)
       | None => None
       end.

Definition zrange (n : Z) : list Z := map Z.of_nat (seq 0 (Z.to_nat n)).

(** [RegionMask.get_overlap_slices]: the box and the array have no pixel in
    common when
    [xmin >= shape[1] or ymin >= shape[0] or xmax <= 0 or ymax <= 0]. *)
Definition no_overlap (m : RegionMask) (shape : Z * Z) : bool :=
  ((ixmin (bbox m) >=? snd shape) || (iymin (bbox m) >=? fst shape)
   || (ixmax (bbox m) <=? 0) || (iymax (bbox m) <=? 0))%Z.

(** [RegionMask.cutout(data, fill_value)].  The library documents it as:
    "Create a cutout from the input data over the mask bounding box, taking
    any edge effects into account. [...] fill_value: The value used to fill
    pixels where the region mask does not overlap with the input data. [...]
    Returns a 2D array cut out from the input data representing the same
    cutout region as the region mask.  If there is a partial overlap of the
    region mask with the input data, pixels outside of the data will be
    assigned to fill_value.  None is returned if there is no overlap of the
    region with the input data."

    So the cutout is the rectangle of the bounding box; the mask array
    [data] is not consulted (that is [RegionMask.multiply] and
    [RegionMask.get_values]). *)
Definition box_values (m : RegionMask) (img : image) (fill_value : float)
  : image :=
  map (fun i =>
         map (fun j =>
                match pixel img (iymin (bbox m) + i) (ixmin (bbox m) + j) with
                | Some v => v
                | None => fill_value
                end)
             (zrange (snd (mask_shape m))))
      (zrange (fst (mask_shape m))).

Definition cutout (m : RegionMask) (img : image) (fill_value : float)
  : option image :=
  if no_overlap m (image_shape img) then None
  else Some (box_values m img fill_value).

(** What the text of the notebook describes, [RegionMask.multiply]
    with the same fill value: the cutout with every pixel whose mask entry
    is 0 replaced by [fill_value].  The notebook does not call it; it is
    here to compare with. *)
Definition masked_cutout (m : RegionMask) (img : image) (fill_value : float)
  : option image :=
  match cutout m img fill_value with
  | None => None
  | Some c =>
      Some (map (fun '(row, mrow) =>
                   map (fun '(v, inside) => if (inside : bool) then v else fill_value)
                       (combine row mrow))
                (combine c (data m)))
  end.

Definition count_to_float (n : nat) : float :=
  of_uint63 (Uint63.of_Z (Z.of_nat n)).

(** Adding up a flat array from left to right, which is how [np.sum] adds
    an array of fewer than eight elements. *)
Definition sum_left_to_right (a : list float) : float :=
  fold_left PrimFloat.add a 0%float.

Section Extract.
(** [np.sum] over a flat float64 array.  numpy adds longer arrays in blocks,
    in an order of its own that can change the last bits of the result, so
    the sum is a parameter here; the inputs evaluated below are added with
    [sum_left_to_right]. *)
Variable np_sum : list float -> float.

(** [np.nanmean(a)] over the whole array: NaNs are replaced by 0, the sum is
    divided by the number of entries that were not NaN.  With no such entry
    this is [0.0 / 0] = NaN (numpy warns "Mean of empty slice" and returns
    NaN).  [np.nanmean(None)] raises [TypeError]. *)
Definition nanmean_array (a : image) : float :=
  let flat := List.concat a in
  let arr := map (fun x => if is_nan x then 0%float else x) flat in
  let cnt := List.length (filter not_nan flat) in
  let tot := np_sum arr in
  (tot / count_to_float cnt)%float.

Definition nanmean (a : option image) : result float :=
  match a with
  | None => Raise TypeError
  | Some a => Ok (nanmean_array a)
  end.

(** A parsed ds9 region and [region.to_mask(mode='center')]: the
    rasterisation of a shape is the library's. *)
Variable Region : Type.
Variable to_mask : Region -> RegionMask.

(** The [for lam in range(data_cube.shape[0])] loop, with the list
    [extracted_flux] built so far. *)
Fixpoint extract_loop (mask : RegionMask) (slices : list image)
         (extracted_flux : list float) : result (list float) :=
  match slices with
  | [] => Ok extracted_flux
  | flux_slice :: rest =>
      value <- nanmean (cutout mask flux_slice nan) ;;
      extract_loop mask rest (extracted_flux ++ [value])
  end.

(** [region_file] is the list of regions [Regions.read] parses from the
    file; [[0]] of an empty list raises [IndexError].  The [wcs] argument
    of the source is not used by it. *)
Definition extract_spectrum_from_region (data_cube : list image)
           (region_file : list Region) : result (list float) :=
  match region_file with
  | [] => Raise IndexError
  | region :: _ =>
      let mask := to_mask region in
      extract_loop mask data_cube []
  end.
End Extract.

(** *** Inputs used below *)

(** The regions of the examples are given by their centre-mode masks. *)
Definition extract_with_masks (data_cube : list image) (masks : list RegionMask)
  : result (list float) :=
  extract_spectrum_from_region sum_left_to_right RegionMask (fun m => m)
                               data_cube masks.

(** A circle of radius 1.2 pixels centred on pixel (1, 1): its box is the
    3 x 3 square around the centre, and the four corner pixels, whose centres
    are at distance 1.41, are outside the circle. *)
Definition circle_mask : RegionMask :=
  mkMask [[false; true; false]; [true; true; true]; [false; true; false]]
         (mkBBox 0 3 0 3).

(** A circle of radius 0.1 pixels centred between four pixels, at
    (0.5, 0.5): its box is the 2 x 2 square of these pixels and no pixel
    centre is inside it. *)
Definition tiny_mask : RegionMask :=
  mkMask [[false; false]; [false; false]] (mkBBox 0 2 0 2).

(** A one-pixel region around pixel (5, 5). *)
Definition far_mask : RegionMask := mkMask [[true]] (mkBBox 5 6 5 6).

(** A region covering a row of three pixels. *)
Definition row_mask : RegionMask := mkMask [[true; true; true]] (mkBBox 0 3 0 1).

Definition flat_3x3 : image := [[1; 1; 1]; [1; 1; 1]; [1; 1; 1]]%float.
Definition bright_corner_3x3 : image := [[10; 1; 1]; [1; 1; 1]; [1; 1; 1]]%float.

(** A cube whose every pixel holds [v]. *)
Definition uniform_image (ny nx : nat) (v : float) : image :=
  repeat (repeat v nx) ny.

Definition uniform_cube (nslices ny nx : nat) (v : float) : list image :=
  repeat (uniform_image ny nx v) nslices.


(** ** Cells 4 to 6: tables, catalogue, reductions *)

(** A row of a wavelength/flux table, columns ['Wavelength [micron]'] and
    ['Flux'] of the CSV files (float64). *)
Record row : Type := mkRow {
  Wavelength : float;
  Flux : float
}.

Definition DataFrame : Type := list row.

(** The catalogue, a dict in insertion order. *)
Definition lines : list (string * float) :=
  [ ("PAH 6.2", 6.2); ("PAH 7.7", 7.7); ("PAH 8.6", 8.6);
    ("[S IV] 10.51", 10.51); ("PAH 11.3", 11.3); ("[Ne II] 12.81", 12.81);
    ("[Ne V] 14.32", 14.32); ("[Ne III] 15.55", 15.55);
    ("[S III] 18.71", 18.71); ("[Ne V] 24.31", 24.31);
    ("[O IV] 25.89", 25.89); ("[S III] 33.48", 33.48) ]%float.

(** [Series.max()] and [Series.min()] of pandas, [skipna=True]: NaN entries
    are left out, and the result is NaN when nothing is left (an empty or an
    all-NaN series).  [step acc y] is the running extremum [acc] after it has
    met [y]. *)
Definition max_step (acc y : float) : float := if (acc <? y)%float then y else acc.
Definition min_step (acc y : float) : float := if (y <? acc)%float then y else acc.

Definition nan_reduce (step : float -> float -> float) (s : list float) : float :=
  match filter not_nan s with
  | [] => nan
  | x :: rest => fold_left step rest x
  end.

Definition series_max : list float -> float := nan_reduce max_step.
Definition series_min : list float -> float := nan_reduce min_step.

(** The builtin [max(iterable)]: the first item, replaced by every later item
    that is [>] the running maximum; [ValueError] on an empty iterable. *)
Definition py_max (l : list float) : result float :=
  match l with
  | [] => Raise ValueError
  | x :: rest => Ok (fold_left max_step rest x)
  end.

(** ** Cell 4: spectrum with line overlay *)

(** What the cell draws, in drawing order. *)
Inductive artist : Type :=
| Plot (xs ys : list float) (label color : string)
| AxVLine (x : float)
| Text (x y : float) (s : string)
| XLabel (s : string)
| YLabel (s : string)
| Title (s : string)
| Grid.

(** The [for name, wl in lines.items()] loop over the artists drawn so far. *)
Fixpoint overlay_loop (wavelengths flux : list float)
         (catalog : list (string * float)) (drawn : list artist)
  : result (list artist) :=
  match catalog with
  | [] => Ok drawn
  | (name, wl) :: rest =>
      if ((series_min wavelengths <? wl) && (wl <? series_max wavelengths))%float
      then
        top <- py_max flux ;;
        overlay_loop wavelengths flux rest
                     (drawn ++ [AxVLine wl; Text wl (top * 0.8)%float name])
      else overlay_loop wavelengths flux rest drawn
  end.

Definition plot_with_lines (df : DataFrame) (catalog : list (string * float))
  : result (list artist) :=
  let wavelengths := map Wavelength df in
  let flux := map Flux df in
  drawn <- overlay_loop wavelengths flux catalog
             [Plot wavelengths flux "Region 1" "black"] ;;
  Ok (drawn ++ [XLabel "Wavelength [μm]"; YLabel "Flux";
                Title "Region 1 Spectrum with Emission Lines"; Grid]).

(** ** Cell 6: emission-line summary table *)

(** [series[mask]]: the entries whose mask entry is [True]. *)
Fixpoint boolean_index {A : Type} (s : list A) (mask : list bool) : list A :=
  match s, mask with
  | x :: s', b :: mask' =>
      if b then x :: boolean_index s' mask' else boolean_index s' mask'
  | _, _ => []
  end.

Definition default_tol : float := 0.1%float.

Definition detect_flux (df : DataFrame) (wavelength tol : float) : float :=
  let mask := map (fun r => ((wavelength - tol <? Wavelength r)
                             && (Wavelength r <? wavelength + tol))%float) df in
  if existsb (fun b => b) mask
  then series_max (boolean_index (map Flux df) mask)
  else nan.

(** [f"{x:.2f}"]: the exact binary value rounded to two decimals, ties to
    even, as Python's float formatting does. *)
Definition digit (n : Z) : ascii := ascii_of_nat (48 + Z.to_nat n).

Definition dec_of_Z (n : Z) : string :=
  NilZero.string_of_uint (N.to_uint (Z.to_N n)).

Definition round_half_even (num den : Z) : Z :=
  let q := (num / den)%Z in
  let r := (num mod den)%Z in
  match (2 * r ?= den)%Z with
  | Lt => q
  | Gt => (q + 1)%Z
  | Eq => if Z.even q then q else (q + 1)%Z
  end.

Definition fixed2 (negative : bool) (hundredths : Z) : string :=
  ((if negative then "-" else "")
   ++ dec_of_Z (hundredths / 100) ++ "."
   ++ String (digit ((hundredths mod 100) / 10))
        (String (digit (hundredths mod 10)) ""))%string.

Definition format_2f (x : float) : string :=
  match Prim2SF x with
  | S754_nan => "nan"
  | S754_infinity s => if s then "-inf" else "inf"
  | S754_zero s => fixed2 s 0
  | S754_finite s m e =>
      fixed2 s (if (0 <=? e)%Z then (100 * Zpos m * 2 ^ e)%Z
                else round_half_even (100 * Zpos m) (2 ^ (- e)))
  end.

Definition em_dash : string := "—".
Definition region_1 : string := "Region 1".
Definition region_2 : string := "Region 2".
Definition equal_or_dash : string := "Equal/—".

(** A row of the summary table, keys ["Line"], ["Wavelength (μm)"],
    ["Region 1 Flux"], ["Region 2 Flux"], ["Stronger In"]. *)
Record summary_row : Type := mkSummary {
  Line : string;
  Wavelength_um : float;
  Region_1_Flux : string;
  Region_2_Flux : string;
  Stronger_In : string
}.

Definition flux_field (f : float) : string :=
  if not_nan f then format_2f f else em_dash.

(** ["Region 1" if f1 > f2 else ("Region 2" if f2 > f1 else "Equal/—")] *)
Definition stronger_in (f1 f2 : float) : string :=
  if (f2 <? f1)%float then region_1
  else if (f1 <? f2)%float then region_2
  else equal_or_dash.

(** The body of the [for name, wl in lines.items()] loop; [detect_flux] is
    called with its default tolerance. *)
Definition summary (df1 df2 : DataFrame) (name : string) (wl : float)
  : summary_row :=
  let f1 := detect_flux df1 wl default_tol in
  let f2 := detect_flux df2 wl default_tol in
  {| Line := name;
     Wavelength_um := wl;
     Region_1_Flux := flux_field f1;
     Region_2_Flux := flux_field f2;
     Stronger_In := stronger_in f1 f2 |}.

Definition line_table (df1 df2 : DataFrame) (catalog : list (string * float))
  : list summary_row :=
  fold_left (fun rows '(name, wl) => rows ++ [summary df1 df2 name wl])
            catalog [].

(** Exchanging the roles of the two tables in a row: the two flux fields
    and the two region labels change places. *)
Definition swap_label (s : string) : string :=
  if String.eqb s region_1 then region_2
  else if String.eqb s region_2 then region_1
  else s.

Definition swap_row (r : summary_row) : summary_row :=
  {| Line := Line r;
     Wavelength_um := Wavelength_um r;
     Region_1_Flux := Region_2_Flux r;
     Region_2_Flux := Region_1_Flux r;
     Stronger_In := swap_label (Stronger_In r) |}.

(** The rows of a table inside the tolerance window of [detect_flux]. *)
Definition in_window (wavelength tol : float) (r : row) : bool :=
  ((wavelength - tol <? Wavelength r) && (Wavelength r <? wavelength + tol))%float.


(** A catalogue wavelength strictly inside the wavelength range of a table,
    and the markers of the catalogue lines that are. *)
Definition strictly_inside (wavelengths : list float) (wl : float) : bool :=
  ((series_min wavelengths <? wl) && (wl <? series_max wavelengths))%float.

(** The value of [max(flux)] where the loop uses it. *)
Definition top_of (flux : list float) : float :=
  match py_max flux with
  | Ok top => top
  | Raise _ => nan
  end.

Definition markers (wavelengths : list float) (top : float)
           (catalog : list (string * float)) : list artist :=
  flat_map (fun '(name, wl) =>
              if strictly_inside wavelengths wl
              then [AxVLine wl; Text wl (top * 0.8)%float name]
              else [])
           catalog.

(** The positions of the vertical markers and the texts of the labels of a
    drawing, in drawing order. *)
Fixpoint axvlines (drawn : list artist) : list float :=
  match drawn with
  | [] => []
  | AxVLine x :: rest => x :: axvlines rest
  | _ :: rest => axvlines rest
  end.

Fixpoint text_labels (drawn : list artist) : list string :=
  match drawn with
  | [] => []
  | Text _ _ s :: rest => s :: text_labels rest
  | _ :: rest => text_labels rest
  end.



(** [np.sum] over a flat float64 array as numpy computes it, by pairwise
    summation (numpy's [pairwise_sum] loop): fewer than eight elements are
    added from left to right, starting from -0.0; up to 128 elements are
    added in eight interleaved running sums, [r[j]] taking the elements
    [j], [8 + j], [16 + j], ..., which are then combined as
    [((r0 + r1) + (r2 + r3)) + ((r4 + r5) + (r6 + r7))] and followed by the
    elements after the last full group of eight; a longer array is cut at
    half its length, rounded down to a multiple of eight, and the sums of
    the two parts are added.  The reduction itself starts from -0.0, and
    from 0.0 for an empty array.  [depth] bounds the number of cuts; the
    length of the array is more than enough. *)
Definition pairwise_small (a : list float) : float :=
  fold_left PrimFloat.add a neg_zero.

Definition lane (a : list float) (ngroups j : nat) : float :=
  fold_left PrimFloat.add
            (map (fun i => nth (8 * i + j) a 0%float) (seq 1 (ngroups - 1)))
            (nth j a 0%float).

Definition pairwise_block (a : list float) : float :=
  let ngroups := List.length a / 8 in
  let r := lane a ngroups in
  let res := (((r 0%nat + r 1%nat) + (r 2%nat + r 3%nat))
              + ((r 4%nat + r 5%nat) + (r 6%nat + r 7%nat)))%float in
  fold_left PrimFloat.add (skipn (8 * ngroups) a) res.

Fixpoint pairwise_sum (depth : nat) (a : list float) : float :=
  let n := List.length a in
  if (n <? 8)%nat then pairwise_small a
  else if (n <=? 128)%nat then pairwise_block a
  else match depth with
       | 0 => pairwise_block a
       | S d =>
           let n2 := n / 2 - (n / 2) mod 8 in
           (pairwise_sum d (firstn n2 a) + pairwise_sum d (skipn n2 a))%float
       end.

Definition np_add_reduce (a : list float) : float :=
  match a with
  | [] => 0%float
  | _ => (neg_zero + pairwise_sum (List.length a) a)%float
  end.

(** Which positions of a list hold a copy of [v], the others holding 0, and
    how many do. *)
Definition copies_and_zeros (v : float) (pattern : list bool) : list float :=
  map (fun b : bool => if b then v else 0%float) pattern.

Definition count_true (pattern : list bool) : nat :=
  List.length (filter (fun b : bool => b) pattern).

(** A pixel position on an image of [ny] rows and [nx] columns. *)
Definition on_image (ny nx : nat) (y x : Z) : bool :=
  ((0 <=? y) && (y <? Z.of_nat ny) && (0 <=? x) && (x <? Z.of_nat nx))%Z.

(** The positions of the bounding box that fall on such an image, row by
    row. *)
Definition box_on_image (m : RegionMask) (ny nx : nat) : list (list bool) :=
  map (fun i =>
         map (fun j => on_image ny nx (iymin (bbox m) + i) (ixmin (bbox m) + j))
             (zrange (snd (mask_shape m))))
      (zrange (fst (mask_shape m))).

(* ================================================================== *)
(** * Part II: properties *)
(* ================================================================== *)

(** ** Order facts of binary64, from the specification of the primitives *)

Lemma lexcmp_spec e1 m1 e2 m2 :
  CompareSpec (e1 = e2 /\ m1 = m2)
              (e1 < e2 \/ (e1 = e2 /\ (m1 < m2)%positive))%Z
              (e2 < e1 \/ (e1 = e2 /\ (m2 < m1)%positive))%Z
              (lexcmp e1 m1 e2 m2).
Proof.
  unfold lexcmp.
  destruct (Z.compare_spec e1 e2) as [He|He|He]; try (constructor; auto; fail).
  change (Pos.compare_cont Eq m1 m2) with (Pos.compare m1 m2).
  destruct (Pos.compare_spec m1 m2); constructor; auto.
Qed.

Lemma SFcompare_finite s1 m1 e1 s2 m2 e2 :
  SFcompare (S754_finite s1 m1 e1) (S754_finite s2 m2 e2) =
  Some (match s1, s2 with
        | true, false => Lt
        | false, true => Gt
        | false, false => lexcmp e1 m1 e2 m2
        | true, true => CompOpp (lexcmp e1 m1 e2 m2)
        end).
Proof.
  destruct s1, s2; simpl; try reflexivity;
    unfold lexcmp; destruct (e1 ?= e2)%Z; reflexivity.
Qed.

Ltac sf_cases :=
  repeat match goal with
         | x : spec_float |- _ => destruct x
         | b : bool |- _ => destruct b
         end.

Ltac lex_cases :=
  repeat match goal with
         | |- context [lexcmp ?a ?b ?c ?d] => destruct (lexcmp_spec a b c d)
         | H : context [lexcmp ?a ?b ?c ?d] |- _ => destruct (lexcmp_spec a b c d)
         end.

Lemma SFcompare_refl x : x <> S754_nan -> SFcompare x x = Some Eq.
Proof.
  intros Hx. destruct x as [s|s| |s m e]; try congruence.
  - reflexivity.
  - destruct s; reflexivity.
  - rewrite SFcompare_finite.
    destruct s; lex_cases; simpl; try reflexivity; lia.
Qed.

Lemma SFcompare_antisym x y c :
  SFcompare x y = Some c -> SFcompare y x = Some (CompOpp c).
Proof.
  destruct x as [sx|sx| |sx mx ex], y as [sy|sy| |sy my ey];
    try (simpl; sf_cases; simpl; intros H; inversion H; reflexivity).
  rewrite !SFcompare_finite.
  intros H; inversion H; subst; clear H.
  destruct sx, sy; simpl; try reflexivity;
    f_equal; lex_cases; simpl; try reflexivity; lia.
Qed.

Lemma SFcompare_total x y :
  x <> S754_nan -> y <> S754_nan -> exists c, SFcompare x y = Some c.
Proof.
  intros Hx Hy.
  destruct x as [sx|sx| |sx mx ex], y as [sy|sy| |sy my ey];
    try congruence; simpl; eauto.
Qed.

Lemma SFleb_trans x y t :
  SFleb x y = true -> SFleb y t = true -> SFleb x t = true.
Proof.
  unfold SFleb.
  destruct x as [sx|sx| |sx mx ex], y as [sy|sy| |sy my ey],
           t as [st|st| |st mt et];
    try (simpl; sf_cases; simpl; congruence).
  rewrite !SFcompare_finite.
  destruct sx, sy, st; try congruence; lex_cases; simpl; try congruence; lia.
Qed.

Lemma Prim2SF_nan : Prim2SF nan = S754_nan.
Proof. reflexivity. Qed.

Lemma is_nan_SF x : is_nan x = true <-> Prim2SF x = S754_nan.
Proof.
  unfold is_nan. rewrite FloatAxioms.eqb_spec. unfold SFeqb. split.
  - intros H. destruct (Prim2SF x) eqn:E; try reflexivity;
      rewrite SFcompare_refl in H by congruence; discriminate.
  - intros ->. reflexivity.
Qed.

Lemma is_nan_false_SF x : is_nan x = false <-> Prim2SF x <> S754_nan.
Proof.
  rewrite <- is_nan_SF. destruct (is_nan x); split; congruence.
Qed.

(** Rocq's binary64 has one NaN. *)
Lemma is_nan_eq x : is_nan x = true -> x = nan.
Proof.
  intros H. apply Prim2SF_inj. rewrite Prim2SF_nan. now apply is_nan_SF.
Qed.

Lemma ltb_nan_l x y : is_nan x = true -> (x <? y)%float = false.
Proof. intros H. rewrite FloatAxioms.ltb_spec. apply is_nan_SF in H. now rewrite H. Qed.

Lemma ltb_nan_r x y : is_nan y = true -> (x <? y)%float = false.
Proof.
  intros H. rewrite FloatAxioms.ltb_spec. apply is_nan_SF in H. rewrite H.
  unfold SFltb. now destruct (Prim2SF x).
Qed.

Lemma leb_nan_l x y : is_nan x = true -> (x <=? y)%float = false.
Proof. intros H. rewrite FloatAxioms.leb_spec. apply is_nan_SF in H. now rewrite H. Qed.

Lemma leb_nan_r x y : is_nan y = true -> (x <=? y)%float = false.
Proof.
  intros H. rewrite FloatAxioms.leb_spec. apply is_nan_SF in H. rewrite H.
  unfold SFleb. now destruct (Prim2SF x).
Qed.

Lemma eqb_nan_l x y : is_nan x = true -> (x =? y)%float = false.
Proof. intros H. rewrite FloatAxioms.eqb_spec. apply is_nan_SF in H. now rewrite H. Qed.

Lemma eqb_nan_r x y : is_nan y = true -> (x =? y)%float = false.
Proof.
  intros H. rewrite FloatAxioms.eqb_spec. apply is_nan_SF in H. rewrite H.
  unfold SFeqb. now destruct (Prim2SF x).
Qed.

Lemma ltb_irrefl x : (x <? x)%float = false.
Proof.
  destruct (is_nan x) eqn:E.
  - now apply ltb_nan_l.
  - rewrite FloatAxioms.ltb_spec. unfold SFltb.
    rewrite SFcompare_refl; [reflexivity | now apply is_nan_false_SF].
Qed.

Lemma ltb_asym x y : (x <? y)%float = true -> (y <? x)%float = false.
Proof.
  rewrite !FloatAxioms.ltb_spec. unfold SFltb.
  destruct (SFcompare (Prim2SF x) (Prim2SF y)) as [c|] eqn:E; try discriminate.
  rewrite (SFcompare_antisym _ _ _ E). now destruct c.
Qed.

Lemma ltb_leb x y : (x <? y)%float = true -> (x <=? y)%float = true.
Proof.
  rewrite FloatAxioms.ltb_spec, FloatAxioms.leb_spec. unfold SFltb, SFleb.
  destruct (SFcompare (Prim2SF x) (Prim2SF y)) as [[]|]; congruence.
Qed.

Lemma leb_refl x : is_nan x = false -> (x <=? x)%float = true.
Proof.
  intros H. rewrite FloatAxioms.leb_spec. unfold SFleb.
  rewrite SFcompare_refl; [reflexivity | now apply is_nan_false_SF].
Qed.

Lemma leb_trans x y t :
  (x <=? y)%float = true -> (y <=? t)%float = true -> (x <=? t)%float = true.
Proof. rewrite !FloatAxioms.leb_spec. apply SFleb_trans. Qed.

Lemma not_ltb_leb x y :
  is_nan x = false -> is_nan y = false ->
  (x <? y)%float = false -> (y <=? x)%float = true.
Proof.
  intros Hx Hy. rewrite FloatAxioms.ltb_spec, FloatAxioms.leb_spec. unfold SFltb, SFleb.
  apply is_nan_false_SF in Hx, Hy.
  destruct (SFcompare_total _ _ Hx Hy) as [c E].
  rewrite E, (SFcompare_antisym _ _ _ E). now destruct c.
Qed.



(** ** Reductions that skip NaN *)



Lemma filter_map {A B : Type} (f : A -> B) (p : B -> bool) (l : list A) :
  filter p (map f l) = map f (filter (fun a => p (f a)) l).
Proof.
  induction l as [|a l IH]; simpl; [reflexivity|].
  destruct (p (f a)); simpl; rewrite IH; reflexivity.
Qed.



Lemma fold_max_in rest : forall x, In (fold_left max_step rest x) (x :: rest).
Proof.
  induction rest as [|y rest IH]; intros x; simpl; [now left|].
  destruct (IH (max_step x y)) as [H|H]; [|now right; right].
  unfold max_step in H at 1. destruct (x <? y)%float; rewrite <- H; auto.
Qed.


Lemma max_step_ge_acc x y :
  is_nan x = false -> (x <=? max_step x y)%float = true.
Proof.
  intros Hx. unfold max_step. destruct (x <? y)%float eqn:E.
  - now apply ltb_leb.
  - now apply leb_refl.
Qed.

Lemma max_step_ge_new x y :
  is_nan x = false -> is_nan y = false -> (y <=? max_step x y)%float = true.
Proof.
  intros Hx Hy. unfold max_step. destruct (x <? y)%float eqn:E.
  - now apply leb_refl.
  - now apply not_ltb_leb.
Qed.

Lemma max_step_not_nan x y :
  is_nan x = false -> is_nan y = false -> is_nan (max_step x y) = false.
Proof. intros Hx Hy. unfold max_step. now destruct (x <? y)%float. Qed.

Lemma fold_max_ge_acc rest : forall x,
  is_nan x = false -> (forall y, In y rest -> is_nan y = false) ->
  (x <=? fold_left max_step rest x)%float = true.
Proof.
  induction rest as [|y rest IH]; intros x Hx Hr; simpl.
  - now apply leb_refl.
  - apply leb_trans with (max_step x y).
    + now apply max_step_ge_acc.
    + apply IH.
      * apply max_step_not_nan; [assumption | apply Hr; now left].
      * intros y' Hy'. apply Hr. now right.
Qed.

Lemma fold_max_upper rest : forall x y,
  is_nan x = false -> (forall y, In y rest -> is_nan y = false) ->
  In y (x :: rest) -> (y <=? fold_left max_step rest x)%float = true.
Proof.
  induction rest as [|y0 rest IH]; intros x y Hx Hr Hin.
  - destruct Hin as [<-|[]]. simpl. now apply leb_refl.
  - assert (H0 : is_nan y0 = false) by (apply Hr; now left).
    assert (Hr' : forall y, In y rest -> is_nan y = false)
      by (intros y' Hy'; apply Hr; now right).
    assert (Hm : is_nan (max_step x y0) = false) by now apply max_step_not_nan.
    simpl. destruct Hin as [<-|[<-|Hin]].
    + apply leb_trans with (max_step x y0);
        [now apply max_step_ge_acc | now apply fold_max_ge_acc].
    + apply leb_trans with (max_step x y0);
        [now apply max_step_ge_new | now apply fold_max_ge_acc].
    + apply IH; [assumption | assumption | now right].
Qed.

(** [Series.max()]: an entry of the series, not below any entry that is not
    NaN; NaN only when every entry is NaN. *)
Lemma series_max_spec s :
  s <> [] ->
  In (series_max s) s /\
  (forall y, In y s -> is_nan y = false -> (y <=? series_max s)%float = true).
Proof.
  intros Hs. unfold series_max, nan_reduce.
  destruct (filter not_nan s) as [|x rest] eqn:E.
  - assert (Hall : forall y, In y s -> is_nan y = true).
    { intros y Hy. destruct (is_nan y) eqn:Ey; [reflexivity|].
      assert (Hf : In y (filter not_nan s))
        by (apply filter_In; split; [assumption | unfold not_nan; now rewrite Ey]).
      rewrite E in Hf. destruct Hf. }
    split.
    + destruct s as [|a s']; [congruence|].
      left. apply is_nan_eq. apply Hall. now left.
    + intros y Hy Hn. rewrite (Hall y Hy) in Hn. discriminate.
  - assert (Hsub : forall y, In y (x :: rest) -> In y s /\ is_nan y = false).
    { intros y Hy. rewrite <- E in Hy. apply filter_In in Hy.
      destruct Hy as [Hy Hn]. split; [assumption|].
      unfold not_nan in Hn. now destruct (is_nan y). }
    split.
    + apply Hsub. apply fold_max_in.
    + intros y Hy Hn. apply fold_max_upper.
      * apply Hsub. now left.
      * intros y' Hy'. apply Hsub. now right.
      * rewrite <- E. apply filter_In.
        split; [assumption | unfold not_nan; now rewrite Hn].
Qed.

Lemma fold_min_in rest : forall x, In (fold_left min_step rest x) (x :: rest).
Proof.
  induction rest as [|y rest IH]; intros x; simpl; [now left|].
  destruct (IH (min_step x y)) as [H|H]; [|now right; right].
  unfold min_step in H at 1. destruct (y <? x)%float; rewrite <- H; auto.
Qed.

Lemma min_step_le_acc x y :
  is_nan x = false -> (min_step x y <=? x)%float = true.
Proof.
  intros Hx. unfold min_step. destruct (y <? x)%float eqn:E.
  - now apply ltb_leb.
  - now apply leb_refl.
Qed.

Lemma min_step_le_new x y :
  is_nan x = false -> is_nan y = false -> (min_step x y <=? y)%float = true.
Proof.
  intros Hx Hy. unfold min_step. destruct (y <? x)%float eqn:E.
  - now apply leb_refl.
  - now apply not_ltb_leb.
Qed.

Lemma min_step_not_nan x y :
  is_nan x = false -> is_nan y = false -> is_nan (min_step x y) = false.
Proof. intros Hx Hy. unfold min_step. now destruct (y <? x)%float. Qed.

Lemma fold_min_lower rest : forall x y,
  is_nan x = false -> (forall y, In y rest -> is_nan y = false) ->
  In y (x :: rest) -> (fold_left min_step rest x <=? y)%float = true.
Proof.
  induction rest as [|y0 rest IH]; intros x y Hx Hr Hin.
  - destruct Hin as [<-|[]]. simpl. now apply leb_refl.
  - assert (H0 : is_nan y0 = false) by (apply Hr; now left).
    assert (Hr' : forall y, In y rest -> is_nan y = false)
      by (intros y' Hy'; apply Hr; now right).
    assert (Hm : is_nan (min_step x y0) = false) by now apply min_step_not_nan.
    assert (Hacc : (fold_left min_step rest (min_step x y0) <=? min_step x y0)%float = true)
      by (apply IH; [assumption | assumption | now left]).
    simpl. destruct Hin as [<-|[<-|Hin]].
    + apply leb_trans with (min_step x y0); [assumption | now apply min_step_le_acc].
    + apply leb_trans with (min_step x y0); [assumption | now apply min_step_le_new].
    + apply IH; [assumption | assumption | now right].
Qed.

(** [Series.min()]: an entry of the series, not above any entry that is not
    NaN; NaN only when every entry is NaN. *)
Lemma series_min_spec s :
  s <> [] ->
  In (series_min s) s /\
  (forall y, In y s -> is_nan y = false -> (series_min s <=? y)%float = true).
Proof.
  intros Hs. unfold series_min, nan_reduce.
  destruct (filter not_nan s) as [|x rest] eqn:E.
  - assert (Hall : forall y, In y s -> is_nan y = true).
    { intros y Hy. destruct (is_nan y) eqn:Ey; [reflexivity|].
      assert (Hf : In y (filter not_nan s))
        by (apply filter_In; split; [assumption | unfold not_nan; now rewrite Ey]).
      rewrite E in Hf. destruct Hf. }
    split.
    + destruct s as [|a s']; [congruence|].
      left. apply is_nan_eq. apply Hall. now left.
    + intros y Hy Hn. rewrite (Hall y Hy) in Hn. discriminate.
  - assert (Hsub : forall y, In y (x :: rest) -> In y s /\ is_nan y = false).
    { intros y Hy. rewrite <- E in Hy. apply filter_In in Hy.
      destruct Hy as [Hy Hn]. split; [assumption|].
      unfold not_nan in Hn. now destruct (is_nan y). }
    split.
    + apply Hsub. apply fold_min_in.
    + intros y Hy Hn. apply fold_min_lower.
      * apply Hsub. now left.
      * intros y' Hy'. apply Hsub. now right.
      * rewrite <- E. apply filter_In.
        split; [assumption | unfold not_nan; now rewrite Hn].
Qed.

(** ** Cell 6: [detect_flux] *)

Lemma boolean_index_map {A B : Type} (f : A -> B) (p : A -> bool) (l : list A) :
  boolean_index (map f l) (map p l) = map f (filter p l).
Proof.
  induction l as [|a l IH]; simpl; [reflexivity|].
  destruct (p a); simpl; now rewrite IH.
Qed.

Lemma mask_any_false {A : Type} (p : A -> bool) (l : list A) :
  existsb (fun b => b) (map p l) = false -> filter p l = [].
Proof.
  induction l as [|a l IH]; simpl; [reflexivity|].
  destruct (p a); simpl; [discriminate | exact IH].
Qed.


(** The two branches of [detect_flux] are one reduction over the rows of the
    window: the maximum of no value is already NaN. *)
Lemma detect_flux_eq df w t :
  detect_flux df w t = series_max (map Flux (filter (in_window w t) df)).
Proof.
  unfold detect_flux.
  change (fun r => ((w - t <? Wavelength r) && (Wavelength r <? w + t))%float)
    with (in_window w t).
  rewrite boolean_index_map.
  destruct (existsb (fun b => b) (map (in_window w t) df)) eqn:E; [reflexivity|].
  now rewrite (mask_any_false _ _ E).
Qed.

(** C3. [detect_flux] selects exactly the rows whose wavelength lies strictly
    between [w - t] and [w + t]; with no such row it returns NaN, the missing
    marker; otherwise it returns the flux of a selected row that no selected
    flux exceeds (NaN fluxes apart, which have no order).  The tolerance is
    0.1 when the caller gives none. *)
Theorem detect_flux_window_max (df : DataFrame) (w t : float) :
  let selected := filter (in_window w t) df in
  (forall r, In r selected <->
             In r df /\ (w - t <? Wavelength r)%float = true
             /\ (Wavelength r <? w + t)%float = true) /\
  (selected = [] -> detect_flux df w t = nan) /\
  (selected <> [] ->
   In (detect_flux df w t) (map Flux selected) /\
   forall r, In r selected -> is_nan (Flux r) = false ->
             (Flux r <=? detect_flux df w t)%float = true) /\
  default_tol = 0.1%float.
Proof.
  intros selected. repeat split.
  - now apply filter_In in H.
  - apply filter_In in H. destruct H as [_ H]. unfold in_window in H.
    now apply andb_true_iff in H.
  - apply filter_In in H. destruct H as [_ H]. unfold in_window in H.
    now apply andb_true_iff in H.
  - intros (Hin & Hlo & Hhi). apply filter_In. split; [assumption|].
    unfold in_window. now rewrite Hlo, Hhi.
  - intros Hsel. rewrite detect_flux_eq. fold selected. now rewrite Hsel.
  - rewrite detect_flux_eq. fold selected.
    apply series_max_spec. destruct selected; [congruence | discriminate].
  - intros r Hr Hn. rewrite detect_flux_eq. fold selected.
    assert (Hne : map Flux selected <> [])
      by (destruct selected; [congruence | discriminate]).
    apply (proj2 (series_max_spec _ Hne)); [|assumption].
    now apply in_map.
Qed.

Lemma detect_flux_window_max_witness :
  In (detect_flux [mkRow 12.75 5; mkRow 12.8 7; mkRow 12.95 9; mkRow 12.85 nan]%float
                  12.81%float default_tol)
     [5; 7; nan]%float
  /\ detect_flux [mkRow 12.95 9]%float 12.81%float default_tol = nan.
Proof.
  split.
  - destruct (detect_flux_window_max
                [mkRow 12.75 5; mkRow 12.8 7; mkRow 12.95 9; mkRow 12.85 nan]%float
                12.81%float default_tol) as (_ & _ & Hmax & _).
    refine (proj1 (Hmax _)). vm_compute. discriminate.
  - destruct (detect_flux_window_max [mkRow 12.95 9]%float 12.81%float default_tol)
      as (_ & Hempty & _).
    apply Hempty. reflexivity.
Defined.



(** ** Cell 6: the "Stronger In" column *)

Lemma stronger_in_cases f1 f2 :
  (stronger_in f1 f2 = region_1 /\ (f2 <? f1)%float = true) \/
  (stronger_in f1 f2 = region_2 /\ (f2 <? f1)%float = false /\ (f1 <? f2)%float = true) \/
  (stronger_in f1 f2 = equal_or_dash /\ (f2 <? f1)%float = false /\ (f1 <? f2)%float = false).
Proof.
  unfold stronger_in.
  destruct (f2 <? f1)%float; [now left|].
  destruct (f1 <? f2)%float; [right; left | right; right]; auto.
Qed.

(** C2. When either detected flux is NaN, every order or equality comparison
    between the two is false, and the row is classified "Equal/—" whatever
    the other flux is; so it is for the fluxes 5.0 and NaN. *)
Theorem stronger_in_missing_is_equal (f1 f2 : float) :
  is_nan f1 = true \/ is_nan f2 = true ->
  ((f1 <? f2)%float = false /\ (f2 <? f1)%float = false /\
   (f1 <=? f2)%float = false /\ (f2 <=? f1)%float = false /\
   (f1 =? f2)%float = false /\ (f2 =? f1)%float = false) /\
  stronger_in f1 f2 = equal_or_dash /\
  (forall df1 df2 name wl,
      detect_flux df1 wl default_tol = f1 ->
      detect_flux df2 wl default_tol = f2 ->
      Stronger_In (summary df1 df2 name wl) = equal_or_dash).
Proof.
  intros H.
  assert (Hlt : (f1 <? f2)%float = false /\ (f2 <? f1)%float = false).
  { destruct H as [H|H];
      split; first [now apply ltb_nan_l | now apply ltb_nan_r]. }
  destruct Hlt as [H12 H21].
  assert (Hs : stronger_in f1 f2 = equal_or_dash)
    by (unfold stronger_in; now rewrite H21, H12).
  split; [|split].
  - destruct H as [H|H]; repeat split;
      first [ assumption | now apply leb_nan_l | now apply leb_nan_r
            | now apply eqb_nan_l | now apply eqb_nan_r ].
  - exact Hs.
  - intros df1 df2 name wl <- <-. exact Hs.
Qed.

Lemma stronger_in_missing_is_equal_witness :
  stronger_in 5%float nan = equal_or_dash /\
  Stronger_In (summary [mkRow 12.75 5]%float [] "[Ne II] 12.81" 12.81%float)
  = equal_or_dash.
Proof.
  destruct (stronger_in_missing_is_equal 5%float nan (or_intror eq_refl))
    as (_ & Hs & Hrow).
  split; [exact Hs|].
  apply Hrow; reflexivity.
Defined.

(** C10. Exchanging the two tables exchanges the two flux fields of every
    row and the labels "Region 1" and "Region 2", and leaves "Equal/—" rows
    as they are; the whole table is the exchanged table, row by row. *)
Theorem summary_swap_tables (df1 df2 : DataFrame) :
  (forall name wl,
      let r := summary df1 df2 name wl in
      let r' := summary df2 df1 name wl in
      r' = swap_row r /\
      Region_1_Flux r' = Region_2_Flux r /\
      Region_2_Flux r' = Region_1_Flux r /\
      (Stronger_In r = region_1 <-> Stronger_In r' = region_2) /\
      (Stronger_In r = region_2 <-> Stronger_In r' = region_1) /\
      (Stronger_In r = equal_or_dash <-> Stronger_In r' = equal_or_dash)) /\
  (forall catalog,
      line_table df2 df1 catalog = map swap_row (line_table df1 df2 catalog)).
Proof.
  assert (Hrow : forall name wl,
             summary df2 df1 name wl = swap_row (summary df1 df2 name wl)).
  { intros name wl. unfold summary, swap_row; simpl. f_equal.
    set (f1 := detect_flux df1 wl default_tol).
    set (f2 := detect_flux df2 wl default_tol).
    unfold stronger_in.
    destruct (f2 <? f1)%float eqn:E21.
    - rewrite (ltb_asym _ _ E21). reflexivity.
    - destruct (f1 <? f2)%float; reflexivity. }
  split.
  - intros name wl r r'. subst r r'. rewrite Hrow.
    split; [reflexivity|]. split; [reflexivity|]. split; [reflexivity|].
    simpl.
    destruct (stronger_in_cases (detect_flux df1 wl default_tol)
                                (detect_flux df2 wl default_tol))
      as [[-> _]|[[-> _]|[-> _]]];
      vm_compute; repeat split; congruence.
  - intros catalog. unfold line_table.
    assert (Hloop : forall rows,
               fold_left (fun rows '(name, wl) => rows ++ [summary df2 df1 name wl])
                         catalog (map swap_row rows)
               = map swap_row
                     (fold_left (fun rows '(name, wl) => rows ++ [summary df1 df2 name wl])
                                catalog rows)).
    { induction catalog as [|[name wl] catalog IH]; intros rows; simpl.
      - reflexivity.
      - rewrite <- IH. f_equal. rewrite map_app. simpl. now rewrite Hrow. }
    exact (Hloop []).
Qed.

Lemma summary_swap_tables_witness :
  Stronger_In (summary [mkRow 7.7 3]%float [mkRow 7.7 4.5]%float "PAH 7.7" 7.7%float)
  = region_2 /\
  Stronger_In (summary [mkRow 7.7 4.5]%float [mkRow 7.7 3]%float "PAH 7.7" 7.7%float)
  = region_1.
Proof.
  destruct (summary_swap_tables [mkRow 7.7 3]%float [mkRow 7.7 4.5]%float)
    as [Hrow _].
  destruct (Hrow "PAH 7.7" 7.7%float) as (_ & _ & _ & _ & H2 & _).
  assert (E : Stronger_In
                (summary [mkRow 7.7 3]%float [mkRow 7.7 4.5]%float "PAH 7.7" 7.7%float)
              = region_2) by reflexivity.
  split; [exact E | exact (proj1 H2 E)].
Defined.

(** ** Cell 2: the pixel scale needs the header field *)

Lemma getitem_ok {A : Type} (l : list (string * A)) key v :
  getitem l key = Ok v -> In (key, v) l.
Proof.
  induction l as [|[k a] l IH]; simpl; [discriminate|].
  destruct (String.eqb key k) eqn:E.
  - apply String.eqb_eq in E. subst k. intros H. inversion H. now left.
  - intros H. right. now apply IH.
Qed.

Lemma getitem_absent {A : Type} (l : list (string * A)) key :
  (forall v, ~ In (key, v) l) -> getitem l key = Raise (KeyError key).
Proof.
  induction l as [|[k a] l IH]; simpl; intros H; [reflexivity|].
  destruct (String.eqb key k) eqn:E.
  - apply String.eqb_eq in E. subst k. exfalso. apply (H a). now left.
  - apply IH. intros v Hv. apply (H v). now right.
Qed.

Lemma getitem_present {A : Type} (l : list (string * A)) key v :
  In (key, v) l -> exists v', getitem l key = Ok v'.
Proof.
  induction l as [|[k a] l IH]; simpl; intros H; [destruct H|].
  destruct (String.eqb key k) eqn:E; [now exists a|].
  destruct H as [H|H]; [|now apply IH].
  inversion H; subst. now rewrite String.eqb_refl in E.
Qed.

(** C6. With a SCI header that has no CDELT1 card the calculation raises
    [KeyError] for that key; with the card present it completes with the
    value read from the header; it never completes with a value that is not
    there. *)
Theorem pixel_scale_needs_cdelt1 (pc_proper_per_arcsec : float -> float)
        (hdul : hdu_list) (hdr : header) :
  getitem hdul "SCI" = Ok hdr ->
  ((forall v, ~ In ("CDELT1", v) hdr) ->
   pixel_scale pc_proper_per_arcsec hdul = Raise (KeyError "CDELT1")) /\
  ((exists v, In ("CDELT1", v) hdr) ->
   exists r, pixel_scale pc_proper_per_arcsec hdul = Ok r) /\
  (forall r, pixel_scale pc_proper_per_arcsec hdul = Ok r ->
             exists v, In ("CDELT1", v) hdr /\
                       getitem hdr "CDELT1" = Ok v /\
                       fst r = (abs v * 3600)%float /\
                       snd r = (abs v * 3600 * pc_proper_per_arcsec z)%float).
Proof.
  intros Hsci. unfold pixel_scale. rewrite Hsci. simpl.
  split; [|split].
  - intros Habs. now rewrite (getitem_absent hdr "CDELT1" Habs).
  - intros [v Hv]. destruct (getitem_present hdr "CDELT1" v Hv) as [v' ->].
    simpl. eauto.
  - intros r. destruct (getitem hdr "CDELT1") as [v|e] eqn:E; simpl; [|discriminate].
    intros H. inversion H; subst; clear H. exists v.
    split; [now apply getitem_ok|]. repeat split.
Qed.

Lemma pixel_scale_needs_cdelt1_witness :
  pixel_scale (fun _ => 340%float) [("PRIMARY", []); ("SCI", [("NAXIS", 3%float)])]
  = Raise (KeyError "CDELT1")
  /\ exists r,
      pixel_scale (fun _ => 340%float)
                  [("PRIMARY", []); ("SCI", [("CDELT1", (-0.000036111)%float)])]
      = Ok r.
Proof.
  split.
  - refine (proj1 (pixel_scale_needs_cdelt1 (fun _ => 340%float)
                     [("PRIMARY", []); ("SCI", [("NAXIS", 3%float)])]
                     [("NAXIS", 3%float)] eq_refl) _).
    intros v [H|[]]. discriminate H.
  - refine (proj1 (proj2 (pixel_scale_needs_cdelt1 (fun _ => 340%float)
                     [("PRIMARY", []); ("SCI", [("CDELT1", (-0.000036111)%float)])]
                     [("CDELT1", (-0.000036111)%float)] eq_refl)) _).
    eexists. now left.
Defined.

(** ** Cell 4: which catalogue lines are drawn *)

Lemma strictly_inside_empty wl : strictly_inside [] wl = false.
Proof.
  unfold strictly_inside. change (series_min []) with nan.
  now rewrite (ltb_nan_l nan wl eq_refl).
Qed.

Lemma markers_empty top catalog : markers [] top catalog = [].
Proof.
  induction catalog as [|[name wl] catalog IH]; simpl; [reflexivity|].
  now rewrite strictly_inside_empty, IH.
Qed.

Lemma overlay_loop_empty flux catalog : forall drawn,
  overlay_loop [] flux catalog drawn = Ok drawn.
Proof.
  induction catalog as [|[name wl] catalog IH]; intros drawn; simpl; [reflexivity|].
  fold (strictly_inside [] wl). now rewrite strictly_inside_empty.
Qed.

Lemma overlay_loop_markers wavelengths flux top catalog :
  py_max flux = Ok top ->
  forall drawn,
    overlay_loop wavelengths flux catalog drawn
    = Ok (drawn ++ markers wavelengths top catalog).
Proof.
  intros Htop.
  induction catalog as [|[name wl] catalog IH]; intros drawn; simpl.
  - now rewrite app_nil_r.
  - fold (strictly_inside wavelengths wl).
    destruct (strictly_inside wavelengths wl).
    + rewrite Htop. simpl. rewrite IH, <- app_assoc. reflexivity.
    + apply IH.
Qed.

Lemma plot_with_lines_eq df catalog :
  plot_with_lines df catalog
  = Ok (Plot (map Wavelength df) (map Flux df) "Region 1" "black"
          :: markers (map Wavelength df) (top_of (map Flux df)) catalog
          ++ [XLabel "Wavelength [μm]"; YLabel "Flux";
              Title "Region 1 Spectrum with Emission Lines"; Grid]).
Proof.
  unfold plot_with_lines. destruct df as [|r df].
  - simpl map. rewrite overlay_loop_empty, markers_empty. reflexivity.
  - rewrite (overlay_loop_markers _ _ (top_of (map Flux (r :: df)))); reflexivity.
Qed.

Lemma in_markers a wavelengths top catalog :
  In a (markers wavelengths top catalog) <->
  exists name wl, In (name, wl) catalog /\ strictly_inside wavelengths wl = true /\
                  (a = AxVLine wl \/ a = Text wl (top * 0.8)%float name).
Proof.
  unfold markers. rewrite in_flat_map. split.
  - intros [[name wl] [Hin Ha]].
    destruct (strictly_inside wavelengths wl) eqn:E; [|destruct Ha].
    exists name, wl. repeat split; try assumption.
    destruct Ha as [<-|[<-|[]]]; auto.
  - intros (name & wl & Hin & Hs & Ha). exists (name, wl). split; [assumption|].
    rewrite Hs. destruct Ha as [-> | ->]; simpl; auto.
Qed.

(** C5. The cell draws without raising, and it draws the vertical marker of
    a wavelength, and the label of a catalogue line, exactly for the
    catalogue entries strictly between the smallest and the largest
    wavelength of the table; an entry equal to either bound gets neither.
    The two bounds are [Series.min()] and [Series.max()]: no wavelength of
    the table is below the first or above the second. *)
Theorem overlay_strictly_inside (df : DataFrame) (catalog : list (string * float)) :
  let lo := series_min (map Wavelength df) in
  let hi := series_max (map Wavelength df) in
  exists drawn,
    plot_with_lines df catalog = Ok drawn /\
    (forall wl,
        In (AxVLine wl) drawn <->
        (exists name, In (name, wl) catalog) /\
        (lo <? wl)%float = true /\ (wl <? hi)%float = true) /\
    (forall wl name,
        (exists y, In (Text wl y name) drawn) <->
        In (name, wl) catalog /\
        (lo <? wl)%float = true /\ (wl <? hi)%float = true) /\
    (forall wl,
        wl = lo \/ wl = hi ->
        ~ In (AxVLine wl) drawn /\ forall y name, ~ In (Text wl y name) drawn) /\
    (forall r, In r df -> is_nan (Wavelength r) = false ->
               (lo <=? Wavelength r)%float = true /\
               (Wavelength r <=? hi)%float = true).
Proof.
  intros lo hi. eexists. split; [apply plot_with_lines_eq|].
  set (ms := markers (map Wavelength df) (top_of (map Flux df)) catalog).
  assert (Hin : forall a, (exists wl, a = AxVLine wl) \/ (exists wl y s, a = Text wl y s) ->
                          In a (Plot (map Wavelength df) (map Flux df) "Region 1" "black"
                                  :: ms ++ [XLabel "Wavelength [μm]"; YLabel "Flux";
                                            Title "Region 1 Spectrum with Emission Lines";
                                            Grid])
                          <-> In a ms).
  { intros a Ha. simpl. rewrite in_app_iff. simpl. split.
    - intros [H|[H|H]]; [| assumption |];
        destruct Ha as [[wl ->]|(wl & y & s & ->)];
        try discriminate H;
        repeat (destruct H as [H|H]; try discriminate H); destruct H.
    - intros H. right. now left. }
  assert (Hax : forall wl,
             In (AxVLine wl) ms <->
             (exists name, In (name, wl) catalog) /\
             (lo <? wl)%float = true /\ (wl <? hi)%float = true).
  { intros wl. unfold ms. rewrite in_markers. split.
    - intros (name & wl' & Hc & Hs & [Ha|Ha]); [|discriminate Ha].
      inversion Ha; subst wl'. split; [now exists name|].
      unfold strictly_inside in Hs. now apply andb_true_iff in Hs.
    - intros [[name Hc] [Hlo Hhi]]. exists name, wl.
      split; [assumption|]. split; [|now left].
      unfold strictly_inside. fold lo hi. now rewrite Hlo, Hhi. }
  assert (Htx : forall wl name,
             (exists y, In (Text wl y name) ms) <->
             In (name, wl) catalog /\
             (lo <? wl)%float = true /\ (wl <? hi)%float = true).
  { intros wl name. unfold ms. split.
    - intros [y Hy]. apply in_markers in Hy.
      destruct Hy as (name' & wl' & Hc & Hs & [Ha|Ha]); [discriminate Ha|].
      inversion Ha; subst. split; [assumption|].
      unfold strictly_inside in Hs. now apply andb_true_iff in Hs.
    - intros [Hc [Hlo Hhi]]. eexists. apply in_markers. exists name, wl.
      split; [assumption|]. split; [|right; reflexivity].
      unfold strictly_inside. fold lo hi. now rewrite Hlo, Hhi. }
  split; [|split; [|split]].
  4: { intros r Hr Hn.
       assert (Hne : map Wavelength df <> [])
         by (destruct df; [destruct Hr | discriminate]).
       split.
       - apply (proj2 (series_min_spec _ Hne)); [now apply in_map | assumption].
       - apply (proj2 (series_max_spec _ Hne)); [now apply in_map | assumption]. }
  - intros wl. rewrite Hin by (left; now exists wl). apply Hax.
  - intros wl name. rewrite <- Htx. split; intros [y Hy]; exists y.
    + apply Hin in Hy; [assumption | right; now exists wl, y, name].
    + apply Hin; [right; now exists wl, y, name | assumption].
  - intros wl Hb.
    assert (Hout : ~ ((lo <? wl)%float = true /\ (wl <? hi)%float = true)).
    { intros [Hlo Hhi]. destruct Hb as [-> | ->].
      - now rewrite ltb_irrefl in Hlo.
      - now rewrite ltb_irrefl in Hhi. }
    split.
    + intros H. apply Hin in H; [|left; now exists wl].
      apply Hax in H. apply Hout, H.
    + intros y name H. apply Hin in H; [|right; now exists wl, y, name].
      assert (H' : exists y, In (Text wl y name) ms) by now exists y.
      apply Htx in H'. apply Hout, H'.
Qed.

Lemma overlay_strictly_inside_witness :
  exists drawn,
    plot_with_lines [mkRow 6.2 1; mkRow 7 2; mkRow 8.6 3]%float lines = Ok drawn /\
    In (AxVLine 7.7%float) drawn /\
    ~ In (AxVLine 6.2%float) drawn /\ ~ In (AxVLine 8.6%float) drawn.
Proof.
  destruct (overlay_strictly_inside [mkRow 6.2 1; mkRow 7 2; mkRow 8.6 3]%float lines)
    as (drawn & Hd & Hax & _ & Hb & _).
  exists drawn. split; [exact Hd|]. split; [|split].
  - apply Hax. split; [exists "PAH 7.7"; simpl; auto|]. split; reflexivity.
  - apply (Hb 6.2%float). left. reflexivity.
  - apply (Hb 8.6%float). right. reflexivity.
Defined.

(** ** Cell 3: what the extraction loop returns *)

Section ExtractFacts.
Variable np_sum : list float -> float.

Lemma extract_loop_length mask slices : forall acc l,
  extract_loop np_sum mask slices acc = Ok l ->
  List.length l = List.length acc + List.length slices.
Proof.
  induction slices as [|img slices IH]; intros acc l; simpl.
  - intros H. inversion H. lia.
  - destruct (nanmean np_sum (cutout mask img nan)) as [value|e]; simpl; [|discriminate].
    intros H. apply IH in H. rewrite H, length_app. simpl. lia.
Qed.

Lemma extract_loop_overlapping mask slices :
  (forall img, In img slices -> no_overlap mask (image_shape img) = false) ->
  forall acc,
    extract_loop np_sum mask slices acc
    = Ok (acc ++ map (fun img => nanmean_array np_sum (box_values mask img nan)) slices).
Proof.
  induction slices as [|img slices IH]; intros Hov acc; simpl.
  - now rewrite app_nil_r.
  - unfold cutout. rewrite (Hov img (or_introl eq_refl)). simpl.
    rewrite IH by (intros img' H'; apply Hov; now right).
    now rewrite <- app_assoc.
Qed.

Lemma extract_loop_no_overlap mask slices :
  (exists img, In img slices /\ no_overlap mask (image_shape img) = true) ->
  forall acc, extract_loop np_sum mask slices acc = Raise TypeError.
Proof.
  induction slices as [|img slices IH]; intros (img' & Hin & Hno) acc.
  - destruct Hin.
  - simpl. unfold cutout.
    destruct (no_overlap mask (image_shape img)) eqn:E; [reflexivity|]. simpl.
    apply IH. exists img'. split; [|assumption].
    destruct Hin as [->|Hin]; [congruence | assumption].
Qed.

(** The mask array plays no part: two regions with the same bounding box
    give the same spectrum. *)
Lemma extract_loop_box_only m m' slices acc :
  bbox m = bbox m' -> extract_loop np_sum m slices acc = extract_loop np_sum m' slices acc.
Proof.
  intros Hb. revert acc.
  induction slices as [|img slices IH]; intros acc; simpl; [reflexivity|].
  assert (E : cutout m img nan = cutout m' img nan).
  { unfold cutout, no_overlap, box_values, mask_shape. now rewrite Hb. }
  rewrite E. destruct (nanmean np_sum (cutout m' img nan)); simpl; auto.
Qed.

Lemma sum_left_to_right_zeros n : sum_left_to_right (repeat 0%float n) = 0%float.
Proof.
  unfold sum_left_to_right. induction n as [|n IH]; simpl; [reflexivity|].
  change (0 + 0)%float with 0%float. exact IH.
Qed.

Lemma map_const {A B : Type} (f : A -> B) (c : B) (l : list A) :
  (forall a, In a l -> f a = c) -> map f l = repeat c (List.length l).
Proof.
  induction l as [|a l IH]; intros H; simpl; [reflexivity|].
  rewrite (H a (or_introl eq_refl)), IH; [reflexivity|].
  intros a' Ha'. apply H. now right.
Qed.

Lemma filter_none {A : Type} (p : A -> bool) (l : list A) :
  (forall a, In a l -> p a = false) -> filter p l = [].
Proof.
  induction l as [|a l IH]; intros H; simpl; [reflexivity|].
  rewrite (H a (or_introl eq_refl)). apply IH. intros a' Ha'. apply H. now right.
Qed.

Lemma filter_all {A : Type} (p : A -> bool) (l : list A) :
  (forall a, In a l -> p a = true) -> filter p l = l.
Proof.
  induction l as [|a l IH]; intros H; simpl; [reflexivity|].
  rewrite (H a (or_introl eq_refl)). f_equal. apply IH.
  intros a' Ha'. apply H. now right.
Qed.

(** A box without a single value that is not NaN averages to NaN, the sum
    of zeros being zero. *)
Lemma nanmean_array_all_nan (a : image) :
  (forall n, np_sum (repeat 0%float n) = 0%float) ->
  (forall x, In x (List.concat a) -> is_nan x = true) ->
  nanmean_array np_sum a = nan.
Proof.
  intros Hzero H. unfold nanmean_array.
  rewrite (map_const _ 0%float (List.concat a))
    by (intros x Hx; now rewrite (H x Hx)).
  rewrite Hzero.
  rewrite (filter_none not_nan (List.concat a))
    by (intros x Hx; unfold not_nan; now rewrite (H x Hx)).
  reflexivity.
Qed.

(** What holds of the length and of the gaps: whenever the extraction
    returns, it returns one entry per slice; it returns when the bounding
    box meets every slice, and then a slice whose box holds no value gives
    NaN (the sum of zeros being zero). *)
Lemma extract_overlapping (Region : Type) (to_mask : Region -> RegionMask)
      (data_cube : list image) (region : Region) (others : list Region) :
  (forall l, extract_spectrum_from_region np_sum Region to_mask data_cube (region :: others) = Ok l ->
             List.length l = List.length data_cube) /\
  ((forall img, In img data_cube ->
                no_overlap (to_mask region) (image_shape img) = false) ->
   exists l,
     extract_spectrum_from_region np_sum Region to_mask data_cube (region :: others) = Ok l /\
     List.length l = List.length data_cube /\
     forall lam img,
       nth_error data_cube lam = Some img ->
       (forall n, np_sum (repeat 0%float n) = 0%float) ->
       (forall x, In x (List.concat (box_values (to_mask region) img nan)) ->
                  is_nan x = true) ->
       nth_error l lam = Some nan).
Proof.
  unfold extract_spectrum_from_region. split.
  - intros l H. now apply extract_loop_length in H.
  - intros Hov. rewrite (extract_loop_overlapping _ _ Hov). simpl.
    eexists. split; [reflexivity|]. split; [apply length_map|].
    intros lam img Hnth Hzero Hnan.
    rewrite nth_error_map, Hnth. simpl. f_equal.
    now apply nanmean_array_all_nan.
Qed.

End ExtractFacts.

(** C1, where the code departs from it.  The mask array of the region plays
    no part in the result: two regions with the same bounding box give the
    same spectrum on every cube.  The circle of radius 1.2 contains the
    centres of five pixels of its 3 x 3 bounding box.  On the image of ones
    the code returns 1; brightening one corner pixel, whose centre is outside
    the circle, to 10 changes the result to 2 = (8 + 10) / 9, the mean over
    the nine pixels of the box; the in-region pixels are the same in both
    images and their mean is 1.  (The sums are of small whole numbers, exact
    in any order of addition.) *)
Theorem extract_averages_bounding_box :
  (forall data_cube m m',
      bbox m = bbox m' ->
      extract_with_masks data_cube [m] = extract_with_masks data_cube [m']) /\
  extract_with_masks [flat_3x3] [circle_mask] = Ok [1%float] /\
  extract_with_masks [bright_corner_3x3] [circle_mask] = Ok [2%float] /\
  masked_cutout circle_mask bright_corner_3x3 nan
  = masked_cutout circle_mask flat_3x3 nan /\
  nanmean sum_left_to_right (masked_cutout circle_mask bright_corner_3x3 nan)
  = Ok 1%float.
Proof.
  split.
  - intros data_cube m m' Hb. now apply extract_loop_box_only.
  - repeat split; vm_compute; reflexivity.
Qed.

(** C4, where the code departs from it.  A region whose bounding box lies
    off the image covers no pixel of any slice: [cutout] returns [None],
    [np.nanmean] raises and the extraction returns no sequence at all.  So it
    is for the one-pixel region at (5, 5) on two slices of one pixel, where
    the specification asks for NaN twice.  A region that contains no pixel
    centre but whose box holds valid pixels gives the mean of the box, 2.5,
    rather than NaN. *)
Theorem extract_off_image_raises :
  (forall data_cube m,
      (exists img, In img data_cube /\ no_overlap m (image_shape img) = true) ->
      extract_with_masks data_cube [m] = Raise TypeError) /\
  extract_with_masks [[[1]]; [[2]]]%float [far_mask] = Raise TypeError /\
  extract_with_masks [[[1; 2]; [3; 4]]]%float [tiny_mask] = Ok [2.5%float].
Proof.
  split.
  - intros data_cube m H. now apply extract_loop_no_overlap.
  - split; vm_compute; reflexivity.
Qed.

(** ** Cell 3: a cube of one value *)

Lemma pixel_uniform ny nx v y x :
  (0 <= y < Z.of_nat ny)%Z -> (0 <= x < Z.of_nat nx)%Z ->
  pixel (uniform_image ny nx v) y x = Some v.
Proof.
  intros Hy Hx. unfold pixel, uniform_image.
  destruct ((y <? 0)%Z || (x <? 0)%Z) eqn:E.
  { apply orb_true_iff in E. destruct E as [E|E]; apply Z.ltb_lt in E; lia. }
  rewrite nth_error_repeat by lia.
  apply nth_error_repeat. lia.
Qed.

(** C8, as the specification states it, fails: three pixels holding 0.1
    average to 0.10000000000000002 in binary64, in both slices. *)
Lemma uniform_cube_mean_rounds :
  extract_with_masks (uniform_cube 2 1 3 0.1%float) [row_mask]
  = Ok [0.10000000000000002; 0.10000000000000002]%float /\
  extract_with_masks (uniform_cube 2 1 3 0.1%float) [row_mask]
  <> Ok (repeat 0.1%float 2).
Proof.
  assert (E : extract_with_masks (uniform_cube 2 1 3 0.1%float) [row_mask]
              = Ok [0.10000000000000002; 0.10000000000000002]%float)
    by (vm_compute; reflexivity).
  split; [exact E|].
  rewrite E. intros H.
  apply (f_equal (fun r => match r with
                           | Ok (x :: _) => (x =? 0.1)%float
                           | _ => true
                           end)) in H.
  vm_compute in H. discriminate H.
Qed.

(** ** The two rows worked out in the description of the table *)

Example row_ne_ii :
  line_table [mkRow 12.75 5]%float [] [("[Ne II] 12.81", 12.81%float)]
  = [ {| Line := "[Ne II] 12.81"; Wavelength_um := 12.81%float;
         Region_1_Flux := "5.00"; Region_2_Flux := "—";
         Stronger_In := "Equal/—" |} ].
Proof. vm_compute. reflexivity. Qed.

Example row_pah_7_7 :
  line_table [mkRow 7.70 3]%float [mkRow 7.70 4.5]%float [("PAH 7.7", 7.7%float)]
  = [ {| Line := "PAH 7.7"; Wavelength_um := 7.7%float;
         Region_1_Flux := "3.00"; Region_2_Flux := "4.50";
         Stronger_In := "Region 2" |} ].
Proof. vm_compute. reflexivity. Qed.

(* ================================================================== *)
(** * Part III: further properties of the cells *)
(* ================================================================== *)

(** ** More order and sign facts of binary64 *)

Lemma SFltb_trans x y t :
  SFltb x y = true -> SFltb y t = true -> SFltb x t = true.
Proof.
  unfold SFltb.
  destruct x as [sx|sx| |sx mx ex], y as [sy|sy| |sy my ey],
           t as [st|st| |st mt et];
    try (simpl; sf_cases; simpl; congruence).
  rewrite !SFcompare_finite.
  destruct sx, sy, st; try congruence; lex_cases; simpl; try congruence; lia.
Qed.

Lemma ltb_trans x y t :
  (x <? y)%float = true -> (y <? t)%float = true -> (x <? t)%float = true.
Proof. rewrite !FloatAxioms.ltb_spec. apply SFltb_trans. Qed.

Lemma eqb_of_not_ltb x y :
  is_nan x = false -> is_nan y = false ->
  (x <? y)%float = false -> (y <? x)%float = false -> (x =? y)%float = true.
Proof.
  intros Hx Hy. rewrite !FloatAxioms.ltb_spec, FloatAxioms.eqb_spec.
  unfold SFltb, SFeqb.
  apply is_nan_false_SF in Hx, Hy.
  destruct (SFcompare_total _ _ Hx Hy) as [c E].
  rewrite E, (SFcompare_antisym _ _ _ E). now destruct c.
Qed.

Lemma eqb_not_ltb x y :
  (x =? y)%float = true -> (x <? y)%float = false /\ (y <? x)%float = false.
Proof.
  rewrite !FloatAxioms.ltb_spec, FloatAxioms.eqb_spec. unfold SFltb, SFeqb.
  destruct (SFcompare (Prim2SF x) (Prim2SF y)) as [c|] eqn:E; [|discriminate].
  rewrite (SFcompare_antisym _ _ _ E). now destruct c.
Qed.

Lemma eqb_of_leb x y :
  (x <=? y)%float = true -> (y <=? x)%float = true -> (x =? y)%float = true.
Proof.
  rewrite !FloatAxioms.leb_spec, FloatAxioms.eqb_spec. unfold SFleb, SFeqb.
  destruct (SFcompare (Prim2SF x) (Prim2SF y)) as [c|] eqn:E; [|discriminate].
  rewrite (SFcompare_antisym _ _ _ E). now destruct c.
Qed.

Lemma abs_opp x : abs (- x)%float = abs x.
Proof.
  apply Prim2SF_inj. rewrite !FloatAxioms.abs_spec, FloatAxioms.opp_spec.
  now destruct (Prim2SF x).
Qed.

Lemma mul_nan_l y : (nan * y)%float = nan.
Proof.
  apply Prim2SF_inj. rewrite FloatAxioms.mul_spec. reflexivity.
Qed.

Lemma binary_round_aux_not_negative prec emax m e l s :
  SFltb (binary_round_aux prec emax false m e l) (S754_zero s) = false.
Proof.
  unfold binary_round_aux.
  destruct (shr_fexp prec emax m e l) as [mrs' e'].
  destruct (shr_fexp prec emax _ e' loc_Exact) as [mrs'' e''].
  destruct (shr_m mrs''); [reflexivity | | reflexivity].
  destruct (e'' <=? emax - prec)%Z; reflexivity.
Qed.

(** [abs(v) * 3600] is never below zero. *)
Lemma abs_times_3600_not_negative v : (abs v * 3600 <? 0)%float = false.
Proof.
  rewrite FloatAxioms.ltb_spec, FloatAxioms.mul_spec, FloatAxioms.abs_spec.
  change (Prim2SF 0) with (S754_zero false).
  destruct (Prim2SF v) as [s|s| |s m e]; try reflexivity.
  remember (Prim2SF 3600) as c eqn:Ec. vm_compute in Ec. subst c.
  unfold SF64mul, SFmul, SFabs. simpl xorb.
  apply binary_round_aux_not_negative.
Qed.

(** ** Cell 2: sign of the header value, and the errors the cell can raise *)

Lemma getitem_raise {A : Type} (l : list (string * A)) key e :
  getitem l key = Raise e -> e = KeyError key /\ forall v, ~ In (key, v) l.
Proof.
  induction l as [|[k a] l IH]; simpl.
  - intros H. inversion H. split; [reflexivity | intros v []].
  - destruct (String.eqb key k) eqn:E; [discriminate|].
    intros H. destruct (IH H) as [He Hn]. split; [assumption|].
    intros v [Hv|Hv]; [|now apply (Hn v)].
    inversion Hv; subst. now rewrite String.eqb_refl in E.
Qed.

(** X1. The sign of CDELT1 plays no part: two files whose SCI headers hold
    opposite values give the same angular and physical pixel size, and the
    angular size [cdelt1] is never below zero. *)
Theorem pixel_scale_ignores_sign (pc_proper_per_arcsec : float -> float)
        (hdul hdul' : hdu_list) (hdr hdr' : header) (v : float) :
  getitem hdul "SCI" = Ok hdr -> getitem hdr "CDELT1" = Ok v ->
  getitem hdul' "SCI" = Ok hdr' -> getitem hdr' "CDELT1" = Ok (- v)%float ->
  pixel_scale pc_proper_per_arcsec hdul' = pixel_scale pc_proper_per_arcsec hdul /\
  exists cdelt1 pix_scale_pc,
    pixel_scale pc_proper_per_arcsec hdul = Ok (cdelt1, pix_scale_pc) /\
    (cdelt1 <? 0)%float = false.
Proof.
  intros Hs Hv Hs' Hv'. unfold pixel_scale.
  rewrite Hs, Hs'. simpl. rewrite Hv, Hv'. simpl. rewrite abs_opp.
  split; [reflexivity|].
  eexists. eexists. split; [reflexivity|].
  apply abs_times_3600_not_negative.
Qed.

Lemma pixel_scale_ignores_sign_witness :
  pixel_scale (fun _ => 340%float) [("SCI", [("CDELT1", (-0.000036111)%float)])]
  = pixel_scale (fun _ => 340%float) [("SCI", [("CDELT1", 0.000036111%float)])].
Proof.
  refine (proj1 (pixel_scale_ignores_sign (fun _ => 340%float)
                   [("SCI", [("CDELT1", 0.000036111%float)])]
                   [("SCI", [("CDELT1", (-0.000036111)%float)])]
                   [("CDELT1", 0.000036111%float)]
                   [("CDELT1", (-0.000036111)%float)]
                   0.000036111%float eq_refl eq_refl eq_refl eq_refl)).
Defined.

(** X2. For an opened file, the cell raises [KeyError] for SCI exactly when
    the file has no extension of that name, whatever its other extensions
    hold: a CDELT1 card of another extension is not used. *)
Theorem pixel_scale_needs_sci (pc_proper_per_arcsec : float -> float)
        (hdul : hdu_list) :
  (forall hdr, ~ In ("SCI", hdr) hdul) <->
  pixel_scale pc_proper_per_arcsec hdul = Raise (KeyError "SCI").
Proof.
  unfold pixel_scale.
  destruct (getitem hdul "SCI") as [hdr|e0] eqn:Es; simpl.
  - split.
    + intros H. exfalso. apply (H hdr). now apply getitem_ok.
    + destruct (getitem hdr "CDELT1") as [v|e1] eqn:Ec; simpl; [discriminate|].
      destruct (getitem_raise _ _ _ Ec) as [-> _]. discriminate.
  - destruct (getitem_raise _ _ _ Es) as [-> Hn].
    split; [reflexivity | intros _; exact Hn].
Qed.

Lemma pixel_scale_needs_sci_witness :
  pixel_scale (fun _ => 340%float) [("PRIMARY", [("CDELT1", 1%float)])]
  = Raise (KeyError "SCI").
Proof.
  apply (proj1 (pixel_scale_needs_sci (fun _ => 340%float)
                  [("PRIMARY", [("CDELT1", 1%float)])])).
  intros hdr [H|[]]. discriminate H.
Defined.

(** ** Cell 6: the rows of the table *)

(** X4. The three labels of "Stronger In" say exactly how the two detected
    fluxes compare: "Region 1" when the first is greater, "Region 2" when the
    second is greater, "Equal/—" when neither is; and for two fluxes that are
    both numbers, "Equal/—" means that they are equal (as [==] has it, so
    0.0 and -0.0 are equal). *)
Theorem stronger_in_labels (f1 f2 : float) :
  (stronger_in f1 f2 = region_1 <-> (f2 <? f1)%float = true) /\
  (stronger_in f1 f2 = region_2 <-> (f1 <? f2)%float = true) /\
  (stronger_in f1 f2 = equal_or_dash <->
   (f2 <? f1)%float = false /\ (f1 <? f2)%float = false) /\
  (is_nan f1 = false -> is_nan f2 = false ->
   (stronger_in f1 f2 = equal_or_dash <-> (f1 =? f2)%float = true)).
Proof.
  assert (H12 : region_1 <> region_2) by discriminate.
  assert (H1e : region_1 <> equal_or_dash) by discriminate.
  assert (H2e : region_2 <> equal_or_dash) by discriminate.
  destruct (stronger_in_cases f1 f2) as [[E H]|[[E [H H']]|[E [H H']]]];
    rewrite E;
    (split; [split; intros; congruence|]);
    (split; [split; intros Hx; try congruence;
             apply ltb_asym in Hx; congruence|]);
    (split; [split; [intros; split; congruence | intros [? ?]; congruence]|]);
    intros Hn1 Hn2; split; intros H0; try congruence.
  - apply eqb_not_ltb in H0. destruct H0; congruence.
  - apply eqb_not_ltb in H0. destruct H0; congruence.
  - now apply eqb_of_not_ltb.
Qed.

Lemma string_length_append (a b : string) :
  String.length (a ++ b)%string = String.length a + String.length b.
Proof. induction a as [|c a IH]; simpl; [reflexivity | now rewrite IH]. Qed.

Lemma dec_of_Z_not_empty n : 1 <= String.length (dec_of_Z n).
Proof.
  unfold dec_of_Z, NilZero.string_of_uint.
  destruct (N.to_uint (Z.to_N n)); simpl; lia.
Qed.

Lemma fixed2_length negative n : 4 <= String.length (fixed2 negative n).
Proof.
  unfold fixed2. rewrite !string_length_append. simpl.
  pose proof (dec_of_Z_not_empty (n / 100)). lia.
Qed.

Lemma format_2f_not_three_bytes f s :
  is_nan f = false -> String.length s = 3 -> s <> "inf" -> format_2f f <> s.
Proof.
  intros Hf Hs Hinf E. apply is_nan_false_SF in Hf.
  unfold format_2f in E.
  destruct (Prim2SF f) as [sg|sg| |sg m e]; try congruence.
  - pose proof (fixed2_length sg 0) as H. rewrite E in H. lia.
  - destruct sg; [|congruence]. subst s. discriminate Hs.
  - match type of E with
    | fixed2 _ ?n = _ => pose proof (fixed2_length sg n) as H
    end.
    rewrite E in H. lia.
Qed.

(** X5. A flux cell of the table shows the em-dash exactly when the detected
    flux is NaN, and never the text "nan". *)
Theorem flux_field_dash (f : float) :
  (flux_field f = em_dash <-> is_nan f = true) /\ flux_field f <> "nan".
Proof.
  unfold flux_field, not_nan.
  destruct (is_nan f) eqn:E; simpl.
  - split; [split; reflexivity | discriminate].
  - split.
    + split; [|discriminate]. intros H. exfalso.
      apply (format_2f_not_three_bytes f em_dash E); [reflexivity | discriminate | assumption].
    + apply format_2f_not_three_bytes; [assumption | reflexivity | discriminate].
Qed.

(** X6. Two decimals are rounded the same way on both sides of zero: a flux
    below zero is shown as the minus sign followed by what its magnitude
    shows. *)
Theorem format_2f_negation (f : float) :
  (0 <? f)%float = true ->
  format_2f (- f)%float = ("-" ++ format_2f f)%string.
Proof.
  rewrite FloatAxioms.ltb_spec. change (Prim2SF 0) with (S754_zero false).
  unfold format_2f. rewrite FloatAxioms.opp_spec.
  destruct (Prim2SF f) as [s|s| |s m e]; simpl; try discriminate.
  - destruct s; [discriminate | reflexivity].
  - destruct s; [discriminate|]. intros _. reflexivity.
Qed.

Lemma format_2f_negation_witness :
  format_2f (PrimFloat.opp 2.675%float) = "-2.67" /\
  format_2f (PrimFloat.opp 0.001%float) = "-0.00".
Proof.
  split.
  - rewrite (format_2f_negation 2.675%float eq_refl). reflexivity.
  - rewrite (format_2f_negation 0.001%float eq_refl). reflexivity.
Defined.

(** ** Cell 6: more on [detect_flux] *)

Lemma leb_true_not_nan x y :
  (x <=? y)%float = true -> is_nan x = false /\ is_nan y = false.
Proof.
  intros H. split.
  - destruct (is_nan x) eqn:E; [|reflexivity]. now rewrite (leb_nan_l x y E) in H.
  - destruct (is_nan y) eqn:E; [|reflexivity]. now rewrite (leb_nan_r x y E) in H.
Qed.

(** Two series with the same entries have the same maximum, up to [==]. *)
Lemma series_max_same_entries s s' :
  (forall x, In x s <-> In x s') ->
  (is_nan (series_max s) = true /\ is_nan (series_max s') = true) \/
  (series_max s =? series_max s')%float = true.
Proof.
  intros Hsame.
  destruct s as [|a s0].
  { destruct s' as [|a' s0']; [left; split; reflexivity|].
    exfalso. apply (proj2 (Hsame a')). now left. }
  assert (Hs : a :: s0 <> []) by discriminate.
  assert (Hs' : s' <> []).
  { intros ->. apply (proj1 (Hsame a)). now left. }
  destruct (series_max_spec _ Hs) as [Hin Hub].
  destruct (series_max_spec _ Hs') as [Hin' Hub'].
  destruct (is_nan (series_max (a :: s0))) eqn:En.
  - left. split; [reflexivity|].
    destruct (is_nan (series_max s')) eqn:En'; [reflexivity|].
    apply Hsame in Hin'. specialize (Hub _ Hin' En').
    apply leb_true_not_nan in Hub. destruct Hub. congruence.
  - right. apply Hsame in Hin. specialize (Hub' _ Hin En).
    destruct (leb_true_not_nan _ _ Hub') as [_ En'].
    apply Hsame in Hin'. specialize (Hub _ Hin' En').
    now apply eqb_of_leb.
Qed.

(** X7. The detected flux does not depend on the order of the rows of the
    table: on a rearranged table [detect_flux] is NaN when it was NaN, and
    otherwise a number equal to the former one. *)
Theorem detect_flux_row_order (df df' : DataFrame) (w t : float) :
  Permutation df df' ->
  (is_nan (detect_flux df w t) = true /\ is_nan (detect_flux df' w t) = true) \/
  (detect_flux df w t =? detect_flux df' w t)%float = true.
Proof.
  intros Hp. rewrite !detect_flux_eq. apply series_max_same_entries.
  intros x. rewrite !in_map_iff.
  split; intros (r & Hr & Hin); exists r; (split; [assumption|]);
    apply filter_In in Hin; apply filter_In; destruct Hin as [Hin Hw];
    (split; [|assumption]).
  - now apply (Permutation_in _ Hp).
  - now apply (Permutation_in _ (Permutation_sym Hp)).
Qed.

Lemma detect_flux_row_order_witness :
  (detect_flux [mkRow 7.65 2; mkRow 7.7 3; mkRow 9 4]%float 7.7%float default_tol
   =? detect_flux [mkRow 9 4; mkRow 7.7 3; mkRow 7.65 2]%float 7.7%float default_tol)%float
  = true.
Proof.
  destruct (detect_flux_row_order
              [mkRow 7.65 2; mkRow 7.7 3; mkRow 9 4]%float
              [mkRow 9 4; mkRow 7.7 3; mkRow 7.65 2]%float 7.7%float default_tol)
    as [[H _]|H].
  - apply Permutation_rev.
  - vm_compute in H. discriminate H.
  - exact H.
Defined.

(** X8. A window whose lower bound [w - t] is not below its upper bound
    [w + t] selects nothing, and [detect_flux] returns NaN for every table:
    so it is for a tolerance of zero, a negative tolerance, and a NaN
    tolerance or wavelength. *)
Theorem detect_flux_no_window (df : DataFrame) (w t : float) :
  (w - t <? w + t)%float = false -> detect_flux df w t = nan.
Proof.
  intros H. rewrite detect_flux_eq.
  rewrite (filter_none (in_window w t) df); [reflexivity|].
  intros r _. unfold in_window.
  destruct (w - t <? Wavelength r)%float eqn:Elo; [|reflexivity].
  destruct (Wavelength r <? w + t)%float eqn:Ehi; [|reflexivity].
  rewrite (ltb_trans _ _ _ Elo Ehi) in H. discriminate.
Qed.

Lemma detect_flux_no_window_witness :
  detect_flux [mkRow 7.7 3]%float 7.7%float 0%float = nan /\
  detect_flux [mkRow 7.7 3]%float 7.7%float (-0.1)%float = nan /\
  detect_flux [mkRow 7.7 3]%float 7.7%float nan = nan /\
  detect_flux [mkRow 7.7 3]%float nan 0.1%float = nan.
Proof.
  split; [|split; [|split]]; apply detect_flux_no_window; reflexivity.
Defined.

(** X9. More rows never lower a detected flux: when [detect_flux] finds a
    number in a table, it finds a number at least as large in the table with
    further rows appended. *)
Theorem detect_flux_more_rows (df more : DataFrame) (w t : float) :
  is_nan (detect_flux df w t) = false ->
  (detect_flux df w t <=? detect_flux (df ++ more) w t)%float = true.
Proof.
  intros Hn. rewrite detect_flux_eq in Hn. rewrite !detect_flux_eq.
  rewrite filter_app, map_app.
  set (s := map Flux (filter (in_window w t) df)) in *.
  set (s' := map Flux (filter (in_window w t) more)).
  assert (Hs : s <> []).
  { intros E. rewrite E in Hn. discriminate Hn. }
  assert (Hss : s ++ s' <> []).
  { intros E. apply app_eq_nil in E. now destruct E. }
  apply (proj2 (series_max_spec _ Hss)); [|assumption].
  apply in_or_app. left. apply (proj1 (series_max_spec _ Hs)).
Qed.

Lemma detect_flux_more_rows_witness :
  (detect_flux [mkRow 7.65 2]%float 7.7%float default_tol
   <=? detect_flux ([mkRow 7.65 2] ++ [mkRow 7.7 3; mkRow 7.75 1])%float
                   7.7%float default_tol)%float = true.
Proof.
  apply (detect_flux_more_rows [mkRow 7.65 2]%float [mkRow 7.7 3; mkRow 7.75 1]%float).
  reflexivity.
Defined.

(** ** Cell 4: height, order and number of the markers *)

Lemma fold_max_nan rest : forall x,
  is_nan x = true -> fold_left max_step rest x = x.
Proof.
  induction rest as [|y rest IH]; intros x Hx; simpl; [reflexivity|].
  unfold max_step at 2. rewrite (ltb_nan_l x y Hx). now apply IH.
Qed.

Lemma strictly_inside_not_empty ws wl : strictly_inside ws wl = true -> ws <> [].
Proof.
  intros H E. subst ws. rewrite strictly_inside_empty in H. discriminate.
Qed.

(** X10. All labels are written at one height, 0.8 times the builtin
    [max(flux)].  That maximum is NaN when the first flux of the table is
    NaN (the builtin [max] does not skip NaN as [Series.max] does), and then
    every label is placed at height NaN. *)
Theorem overlay_label_height (df : DataFrame) (catalog : list (string * float))
        (drawn : list artist) (wl y : float) (name : string) :
  plot_with_lines df catalog = Ok drawn ->
  In (Text wl y name) drawn ->
  exists top,
    py_max (map Flux df) = Ok top /\ y = (top * 0.8)%float /\
    (forall r rest, df = r :: rest -> is_nan (Flux r) = true -> is_nan y = true).
Proof.
  rewrite plot_with_lines_eq. intros H Hin. inversion H; subst drawn; clear H.
  simpl in Hin. destruct Hin as [Hin|Hin]; [discriminate Hin|].
  apply in_app_or in Hin. destruct Hin as [Hin|Hin].
  2: { simpl in Hin.
       repeat (destruct Hin as [Hin|Hin]; [discriminate Hin|]). destruct Hin. }
  apply in_markers in Hin.
  destruct Hin as (name' & wl' & _ & Hs & [Ha|Ha]); [discriminate Ha|].
  inversion Ha; subst; clear Ha.
  apply strictly_inside_not_empty in Hs.
  destruct df as [|r0 df0]; [now contradiction Hs|].
  exists (top_of (map Flux (r0 :: df0))). split; [reflexivity|]. split; [reflexivity|].
  intros r rest E Hr. inversion E; subst r0 df0; clear E.
  unfold top_of. simpl.
  rewrite (fold_max_nan _ _ Hr). rewrite (is_nan_eq _ Hr).
  now rewrite mul_nan_l.
Qed.

Lemma overlay_label_height_witness :
  exists top,
    py_max [nan; 2; 3]%float = Ok top /\ nan = (top * 0.8)%float.
Proof.
  assert (Hin : In (Text 7.7%float nan "PAH 7.7")
                   [Plot [6.2; 7; 8.6]%float [nan; 2; 3]%float "Region 1" "black";
                    AxVLine 7.7%float; Text 7.7%float nan "PAH 7.7";
                    XLabel "Wavelength [μm]"; YLabel "Flux";
                    Title "Region 1 Spectrum with Emission Lines"; Grid])
    by (right; right; left; reflexivity).
  destruct (overlay_label_height [mkRow 6.2 nan; mkRow 7 2; mkRow 8.6 3]%float lines
              _ 7.7%float nan "PAH 7.7" eq_refl Hin) as (top & H1 & H2 & _).
  exists top. split; assumption.
Defined.

Lemma series_min_max_one x : (series_min [x] <? series_max [x])%float = false.
Proof.
  unfold series_min, series_max, nan_reduce. simpl.
  destruct (not_nan x); simpl; first [reflexivity | apply ltb_irrefl].
Qed.

(** X11. Without a range there is no marker: when the smallest wavelength of
    the table is not below the largest (an empty table, a table of one row, a
    table of equal or of NaN wavelengths), the cell draws the curve, the axis
    labels, the title and the grid, and nothing for any catalogue line. *)
Theorem overlay_needs_a_range (df : DataFrame) (catalog : list (string * float)) :
  ((series_min (map Wavelength df) <? series_max (map Wavelength df))%float = false ->
   plot_with_lines df catalog
   = Ok [Plot (map Wavelength df) (map Flux df) "Region 1" "black";
         XLabel "Wavelength [μm]"; YLabel "Flux";
         Title "Region 1 Spectrum with Emission Lines"; Grid]) /\
  (List.length df <= 1 ->
   (series_min (map Wavelength df) <? series_max (map Wavelength df))%float = false).
Proof.
  split.
  - intros H. rewrite plot_with_lines_eq.
    assert (E : markers (map Wavelength df) (top_of (map Flux df)) catalog = []).
    { induction catalog as [|[name wl] catalog IH]; simpl; [reflexivity|].
      rewrite IH, app_nil_r.
      destruct (strictly_inside (map Wavelength df) wl) eqn:Es; [|reflexivity].
      unfold strictly_inside in Es. apply andb_true_iff in Es. destruct Es as [Hlo Hhi].
      rewrite (ltb_trans _ _ _ Hlo Hhi) in H. discriminate. }
    now rewrite E.
  - intros Hlen. destruct df as [|r [|r' df]]; simpl in Hlen; try lia.
    + reflexivity.
    + apply series_min_max_one.
Qed.

Lemma overlay_needs_a_range_witness :
  plot_with_lines [mkRow 7.7 3]%float lines
  = Ok [Plot [7.7%float] [3%float] "Region 1" "black";
        XLabel "Wavelength [μm]"; YLabel "Flux";
        Title "Region 1 Spectrum with Emission Lines"; Grid].
Proof.
  destruct (overlay_needs_a_range [mkRow 7.7 3]%float lines) as [H Hshort].
  apply H. apply Hshort. simpl. lia.
Defined.

Lemma axvlines_app a b : axvlines (a ++ b) = axvlines a ++ axvlines b.
Proof.
  induction a as [|x a IH]; simpl; [reflexivity|].
  destruct x; simpl; now rewrite IH.
Qed.

Lemma text_labels_app a b : text_labels (a ++ b) = text_labels a ++ text_labels b.
Proof.
  induction a as [|x a IH]; simpl; [reflexivity|].
  destruct x; simpl; now rewrite IH.
Qed.

(** X12. The markers follow the catalogue: the vertical lines are drawn at
    the catalogue wavelengths strictly inside the range, in catalogue order
    and once per catalogue entry, the labels carry the names of the same
    entries in the same order, and besides these pairs the drawing holds
    five artists (curve, two axis labels, title, grid). *)
Theorem overlay_follows_catalog (df : DataFrame) (catalog : list (string * float))
        (drawn : list artist) :
  plot_with_lines df catalog = Ok drawn ->
  let inside := filter (fun e => strictly_inside (map Wavelength df) (snd e)) catalog in
  axvlines drawn = map snd inside /\
  text_labels drawn = map fst inside /\
  List.length drawn = 5 + 2 * List.length inside.
Proof.
  rewrite plot_with_lines_eq. intros H. inversion H; subst drawn; clear H.
  intros inside. subst inside.
  set (ws := map Wavelength df). set (top := top_of (map Flux df)).
  assert (Hm : axvlines (markers ws top catalog)
               = map snd (filter (fun e => strictly_inside ws (snd e)) catalog)
               /\ text_labels (markers ws top catalog)
                  = map fst (filter (fun e => strictly_inside ws (snd e)) catalog)
               /\ List.length (markers ws top catalog)
                  = 2 * List.length (filter (fun e => strictly_inside ws (snd e)) catalog)).
  { induction catalog as [|[name wl] catalog (IH1 & IH2 & IH3)]; simpl.
    - repeat split.
    - rewrite axvlines_app, text_labels_app, length_app, IH1, IH2, IH3.
      destruct (strictly_inside ws wl); simpl; repeat split; lia. }
  destruct Hm as (H1 & H2 & H3).
  simpl. rewrite axvlines_app, text_labels_app, length_app, H1, H2, H3. simpl.
  rewrite !app_nil_r. repeat split. lia.
Qed.

Lemma overlay_follows_catalog_witness :
  exists drawn,
    plot_with_lines [mkRow 6 1; mkRow 9 2]%float lines = Ok drawn /\
    axvlines drawn = [6.2; 7.7; 8.6]%float /\
    text_labels drawn = ["PAH 6.2"; "PAH 7.7"; "PAH 8.6"].
Proof.
  eexists. split; [reflexivity|].
  destruct (overlay_follows_catalog [mkRow 6 1; mkRow 9 2]%float lines _ eq_refl)
    as (H1 & H2 & _).
  split; [exact H1 | exact H2].
Defined.

(** ** Cell 3: when the extraction returns, and what *)

Section ExtractMore.
Variable np_sum : list float -> float.

Lemma extract_loop_ok_overlap mask slices acc l :
  extract_loop np_sum mask slices acc = Ok l ->
  forall img, In img slices -> no_overlap mask (image_shape img) = false.
Proof.
  intros H img Hin.
  destruct (no_overlap mask (image_shape img)) eqn:E; [|reflexivity].
  rewrite (extract_loop_no_overlap np_sum mask slices) in H by (now exists img).
  discriminate H.
Qed.

Lemma overlap_all_or_one mask (slices : list image) :
  (forall img, In img slices -> no_overlap mask (image_shape img) = false) \/
  (exists img, In img slices /\ no_overlap mask (image_shape img) = true).
Proof.
  induction slices as [|img slices [IH|(img' & Hin & Hno)]].
  - left. intros img [].
  - destruct (no_overlap mask (image_shape img)) eqn:E.
    + right. exists img. split; [now left | assumption].
    + left. intros img' [<-|Hin]; [assumption | now apply IH].
  - right. exists img'. split; [now right | assumption].
Qed.

Lemma extract_loop_acc mask slices : forall acc,
  extract_loop np_sum mask slices acc
  = l <- extract_loop np_sum mask slices [] ;; Ok (acc ++ l).
Proof.
  induction slices as [|img slices IH]; intros acc; simpl.
  - now rewrite app_nil_r.
  - destruct (nanmean np_sum (cutout mask img nan)) as [value|e]; simpl; [|reflexivity].
    rewrite (IH (acc ++ [value])), (IH [value]).
    destruct (extract_loop np_sum mask slices []) as [l|e]; simpl; [|reflexivity].
    now rewrite <- app_assoc.
Qed.

Lemma extract_loop_app mask slices slices' : forall acc,
  extract_loop np_sum mask (slices ++ slices') acc
  = acc' <- extract_loop np_sum mask slices acc ;;
    extract_loop np_sum mask slices' acc'.
Proof.
  induction slices as [|img slices IH]; intros acc; simpl; [reflexivity|].
  destruct (nanmean np_sum (cutout mask img nan)) as [value|e]; simpl; [|reflexivity].
  apply IH.
Qed.

(** X13. For a region file that parses to at least one pixel region: the
    extraction returns a sequence exactly when the bounding box of the first
    region meets every slice of the cube, and the mean raises [TypeError]
    exactly when the box misses some slice altogether. *)
Theorem extract_returns_iff_overlap (Region : Type) (to_mask : Region -> RegionMask)
        (data_cube : list image) (region : Region) (others : list Region) :
  ((forall img, In img data_cube ->
                no_overlap (to_mask region) (image_shape img) = false) <->
   exists l,
     extract_spectrum_from_region np_sum Region to_mask data_cube (region :: others)
     = Ok l) /\
  ((exists img, In img data_cube /\
                no_overlap (to_mask region) (image_shape img) = true) <->
   extract_spectrum_from_region np_sum Region to_mask data_cube (region :: others)
   = Raise TypeError).
Proof.
  unfold extract_spectrum_from_region.
  destruct (overlap_all_or_one (to_mask region) data_cube) as [Hall|Hone].
  - rewrite (extract_loop_overlapping np_sum _ _ Hall). simpl.
    split; split.
    + intros _. eexists. reflexivity.
    + intros _. exact Hall.
    + intros (img & Hin & Hno). rewrite (Hall img Hin) in Hno. discriminate.
    + discriminate.
  - rewrite (extract_loop_no_overlap np_sum _ _ Hone).
    split; split.
    + intros Hall. destruct Hone as (img & Hin & Hno).
      rewrite (Hall img Hin) in Hno. discriminate.
    + intros [l Hl]. discriminate Hl.
    + reflexivity.
    + intros _. exact Hone.
Qed.

(** X14. When the extraction returns, entry [lam] of the result is the
    NaN-ignoring mean of the pixels of slice [lam] inside the bounding box of
    the first region (positions of the box off the image counting as NaN): it
    depends on no other slice, and on no other region of the file. *)
Theorem extract_slice_values (Region : Type) (to_mask : Region -> RegionMask)
        (data_cube : list image) (region : Region) (others : list Region)
        (l : list float) :
  extract_spectrum_from_region np_sum Region to_mask data_cube (region :: others)
  = Ok l ->
  List.length l = List.length data_cube /\
  (forall lam img,
      nth_error data_cube lam = Some img ->
      nth_error l lam
      = Some (nanmean_array np_sum (box_values (to_mask region) img nan))) /\
  (forall others',
      extract_spectrum_from_region np_sum Region to_mask data_cube (region :: others')
      = Ok l).
Proof.
  unfold extract_spectrum_from_region. intros H.
  pose proof (extract_loop_ok_overlap _ _ _ _ H) as Hall.
  rewrite (extract_loop_overlapping np_sum _ _ Hall) in H. simpl in H.
  inversion H; subst l; clear H.
  split; [apply length_map|]. split.
  - intros lam img Hnth. now rewrite nth_error_map, Hnth.
  - intros others'. now rewrite (extract_loop_overlapping np_sum _ _ Hall).
Qed.

(** X15. Extraction goes slice by slice: the spectrum of two cubes put one
    after the other is the spectrum of the first followed by the spectrum of
    the second, and an error in the first part is the error of the whole. *)
Theorem extract_concat (Region : Type) (to_mask : Region -> RegionMask)
        (cube1 cube2 : list image) (region_file : list Region) :
  (forall l1 l2,
      extract_spectrum_from_region np_sum Region to_mask cube1 region_file = Ok l1 ->
      extract_spectrum_from_region np_sum Region to_mask cube2 region_file = Ok l2 ->
      extract_spectrum_from_region np_sum Region to_mask (cube1 ++ cube2) region_file
      = Ok (l1 ++ l2)) /\
  (forall e,
      extract_spectrum_from_region np_sum Region to_mask cube1 region_file = Raise e ->
      extract_spectrum_from_region np_sum Region to_mask (cube1 ++ cube2) region_file
      = Raise e) /\
  (forall l,
      extract_spectrum_from_region np_sum Region to_mask (cube1 ++ cube2) region_file
      = Ok l ->
      exists l1 l2,
        l = l1 ++ l2 /\
        extract_spectrum_from_region np_sum Region to_mask cube1 region_file = Ok l1 /\
        extract_spectrum_from_region np_sum Region to_mask cube2 region_file = Ok l2).
Proof.
  unfold extract_spectrum_from_region.
  destruct region_file as [|region others].
  - repeat split; intros; first [discriminate | assumption].
  - rewrite extract_loop_app.
    destruct (extract_loop np_sum (to_mask region) cube1 []) as [l1|e1]; simpl.
    + rewrite (extract_loop_acc (to_mask region) cube2 l1).
      destruct (extract_loop np_sum (to_mask region) cube2 []) as [l2|e2]; simpl.
      * split; [|split].
        -- intros l1' l2' H1 H2. inversion H1. inversion H2. reflexivity.
        -- discriminate.
        -- intros l H. inversion H. now exists l1, l2.
      * repeat split; intros; discriminate.
    + split; [|split].
      * intros l1 l2 H. discriminate H.
      * intros e H. exact H.
      * intros l H. discriminate H.
Qed.

(** X16. A data gap stays a gap and touches nothing else: when the bounding
    box meets every slice and the sum of zeros is zero, the extraction
    returns one entry per slice; a slice whose pixels inside the box are all
    NaN gives the entry NaN, not zero and not an error; and the entries of
    the other slices are what they are whatever that slice holds. *)
Theorem extract_gap_slice (Region : Type) (to_mask : Region -> RegionMask)
        (data_cube : list image) (region : Region) (others : list Region)
        (lam : nat) (img : image) :
  (forall n, np_sum (repeat 0%float n) = 0%float) ->
  (forall img', In img' data_cube ->
                no_overlap (to_mask region) (image_shape img') = false) ->
  nth_error data_cube lam = Some img ->
  (forall x, In x (List.concat (box_values (to_mask region) img nan)) ->
             is_nan x = true) ->
  exists l,
    extract_spectrum_from_region np_sum Region to_mask data_cube (region :: others)
    = Ok l /\
    List.length l = List.length data_cube /\
    nth_error l lam = Some nan /\
    (forall cube' l',
        (forall j, j <> lam -> nth_error cube' j = nth_error data_cube j) ->
        extract_spectrum_from_region np_sum Region to_mask cube' (region :: others)
        = Ok l' ->
        forall j, j <> lam -> nth_error l' j = nth_error l j).
Proof.
  unfold extract_spectrum_from_region. intros Hzero Hall Hnth Hnan.
  rewrite (extract_loop_overlapping np_sum _ _ Hall). simpl.
  eexists. split; [reflexivity|]. split; [apply length_map|]. split.
  - rewrite nth_error_map, Hnth. simpl. f_equal.
    now apply nanmean_array_all_nan.
  - intros cube' l' Hsame H j Hj.
    pose proof (extract_loop_ok_overlap _ _ _ _ H) as Hall'.
    rewrite (extract_loop_overlapping np_sum _ _ Hall') in H. simpl in H.
    inversion H; subst l'; clear H.
    now rewrite !nth_error_map, (Hsame j Hj).
Qed.
End ExtractMore.

Lemma extract_gap_slice_witness :
  exists l,
    extract_with_masks [[[nan; nan; 5]]; [[1; 3; 5]]]%float
                       [mkMask [[true; true]] (mkBBox 0 2 0 1)] = Ok l /\
    nth_error l 0 = Some nan /\
    forall l',
      extract_with_masks [[[7; 9; 5]]; [[1; 3; 5]]]%float
                         [mkMask [[true; true]] (mkBBox 0 2 0 1)] = Ok l' ->
      nth_error l' 1 = nth_error l 1.
Proof.
  destruct (extract_gap_slice sum_left_to_right RegionMask (fun m => m)
              [[[nan; nan; 5]]; [[1; 3; 5]]]%float
              (mkMask [[true; true]] (mkBBox 0 2 0 1)) [] 0
              [[nan; nan; 5]]%float sum_left_to_right_zeros)
    as (l & Hl & _ & Hgap & Hkeep).
  - intros img' [<-|[<-|[]]]; reflexivity.
  - reflexivity.
  - intros x [<-|[<-|[]]]; reflexivity.
  - exists l. split; [exact Hl|]. split; [exact Hgap|].
    intros l' Hl'.
    apply (Hkeep [[[7; 9; 5]]; [[1; 3; 5]]]%float l'); [|exact Hl' | discriminate].
    intros [|[|j]] Hj; try reflexivity. now contradiction Hj.
Defined.

Lemma extract_slice_values_witness :
  extract_with_masks [[[1; 3; 5]]; [[2; 4; 6]]]%float
                     [mkMask [[true; true]] (mkBBox 0 2 0 1); far_mask]
  = Ok [2; 3]%float.
Proof.
  apply (proj2 (proj2 (extract_slice_values sum_left_to_right RegionMask (fun m => m)
                         [[[1; 3; 5]]; [[2; 4; 6]]]%float
                         (mkMask [[true; true]] (mkBBox 0 2 0 1)) [] [2; 3]%float
                         eq_refl))).
Defined.

(* ================================================================== *)
(** * Part IV: the physical pixel size, and a cube of one value *)
(* ================================================================== *)

(** ** Signs of binary64 products *)















(** ** Cell 2: the physical size as a product *)




(** ** numpy's pairwise sum *)

Lemma pairwise_sum_eq depth a :
  pairwise_sum depth a
  = if (List.length a <? 8)%nat then pairwise_small a
    else if (List.length a <=? 128)%nat then pairwise_block a
    else match depth with
         | 0 => pairwise_block a
         | S d =>
             let n2 := List.length a / 2 - (List.length a / 2) mod 8 in
             (pairwise_sum d (firstn n2 a) + pairwise_sum d (skipn n2 a))%float
         end.
Proof. destruct depth; reflexivity. Qed.

Lemma cut_lengths n :
  128 < n ->
  1 <= n / 2 - (n / 2) mod 8 /\ n / 2 - (n / 2) mod 8 < n.
Proof.
  intros H.
  pose proof (Nat.div_mod_eq n 2) as H2.
  pose proof (Nat.mod_upper_bound n 2 ltac:(discriminate)) as H3.
  pose proof (Nat.mod_upper_bound (n / 2) 8 ltac:(discriminate)) as H4.
  lia.
Qed.

(** The bound on the number of cuts plays no part once it is at least the
    length of the array. *)
Lemma pairwise_sum_depth d : forall d' a,
  List.length a <= d -> List.length a <= d' ->
  pairwise_sum d a = pairwise_sum d' a.
Proof.
  induction d as [|d IH]; intros d' a Hd Hd'; rewrite (pairwise_sum_eq _ a);
    rewrite (pairwise_sum_eq d' a);
    destruct (List.length a <? 8)%nat eqn:E8; try reflexivity;
    destruct (List.length a <=? 128)%nat eqn:E128; try reflexivity;
    apply Nat.leb_gt in E128.
  - lia.
  - destruct d' as [|d']; [lia|].
    destruct (cut_lengths _ E128) as [Hlo Hhi].
    cbv zeta. f_equal; apply IH; rewrite ?length_firstn, ?length_skipn; lia.
Qed.

Lemma in_firstn {A : Type} (x : A) n l : In x (firstn n l) -> In x l.
Proof.
  revert l. induction n as [|n IH]; intros [|a l]; simpl; try tauto.
  intros [H|H]; [now left | right; now apply IH].
Qed.

Lemma in_skipn {A : Type} (x : A) n l : In x (skipn n l) -> In x l.
Proof.
  revert l. induction n as [|n IH]; intros [|a l]; simpl; try tauto.
  intros H. right. now apply IH.
Qed.

Lemma fold_add_zeros a :
  (forall x, In x a -> x = 0%float) -> fold_left PrimFloat.add a 0%float = 0%float.
Proof.
  induction a as [|x a IH]; intros H; simpl; [reflexivity|].
  rewrite (H x (or_introl eq_refl)). change (0 + 0)%float with 0%float.
  apply IH. intros y Hy. apply H. now right.
Qed.

Lemma nth_zeros a i : (forall x, In x a -> x = 0%float) -> nth i a 0%float = 0%float.
Proof.
  intros H. destruct (nth_in_or_default i a 0%float) as [Hin|E]; [now apply H | exact E].
Qed.

Lemma pairwise_block_zeros a :
  (forall x, In x a -> x = 0%float) -> pairwise_block a = 0%float.
Proof.
  intros H. unfold pairwise_block.
  assert (L : forall j, lane a (List.length a / 8) j = 0%float).
  { intros j. unfold lane. rewrite (nth_zeros a j H). apply fold_add_zeros.
    intros x Hx. apply in_map_iff in Hx. destruct Hx as (i & <- & _).
    now apply nth_zeros. }
  cbv zeta. rewrite !L.
  change (0 + 0 + (0 + 0) + (0 + 0 + (0 + 0)))%float with 0%float.
  apply fold_add_zeros. intros x Hx. apply H. eapply in_skipn. exact Hx.
Qed.

Lemma pairwise_sum_zeros d : forall a,
  a <> [] -> (forall x, In x a -> x = 0%float) -> pairwise_sum d a = 0%float.
Proof.
  induction d as [|d IH]; intros a Hne H; rewrite pairwise_sum_eq;
    destruct (List.length a <? 8)%nat eqn:E8;
    try (destruct a as [|x a]; [congruence|];
         unfold pairwise_small; simpl;
         rewrite (H x (or_introl eq_refl));
         change (neg_zero + 0)%float with 0%float;
         apply fold_add_zeros; intros y Hy; apply H; now right);
    destruct (List.length a <=? 128)%nat eqn:E128;
    try (now apply pairwise_block_zeros).
  apply Nat.leb_gt in E128. destruct (cut_lengths _ E128) as [Hlo Hhi].
  cbv zeta.
  rewrite (IH (firstn _ a)), (IH (skipn _ a)).
  - reflexivity.
  - intros E. apply (f_equal (@List.length float)) in E.
    rewrite length_skipn in E. change (List.length (@nil float)) with 0 in E. lia.
  - intros x Hx. apply H. eapply in_skipn. exact Hx.
  - intros E. apply (f_equal (@List.length float)) in E.
    rewrite length_firstn in E. change (List.length (@nil float)) with 0 in E. lia.
  - intros x Hx. apply H. eapply in_firstn. exact Hx.
Qed.

Lemma np_add_reduce_zeros n : np_add_reduce (repeat 0%float n) = 0%float.
Proof.
  destruct n as [|n]; [reflexivity|].
  unfold np_add_reduce. simpl repeat.
  rewrite pairwise_sum_zeros.
  - reflexivity.
  - discriminate.
  - intros x Hx. change (0%float :: repeat 0%float n) with (repeat 0%float (S n)) in Hx.
    now apply repeat_spec in Hx.
Qed.

(** ** Cell 3: a cube of one value, with numpy's sum *)

Lemma pixel_uniform_on_image ny nx v y x :
  pixel (uniform_image ny nx v) y x = if on_image ny nx y x then Some v else None.
Proof.
  unfold on_image.
  destruct (0 <=? y)%Z eqn:Ey0; simpl.
  2: { unfold pixel. apply Z.leb_gt in Ey0.
       now rewrite (proj2 (Z.ltb_lt y 0) Ey0). }
  apply Z.leb_le in Ey0.
  destruct (y <? Z.of_nat ny)%Z eqn:Ey1; simpl.
  2: { unfold pixel, uniform_image. apply Z.ltb_ge in Ey1.
       destruct ((y <? 0)%Z || (x <? 0)%Z); [reflexivity|].
       rewrite (proj2 (nth_error_None _ _)); [reflexivity|].
       rewrite repeat_length. lia. }
  apply Z.ltb_lt in Ey1.
  destruct (0 <=? x)%Z eqn:Ex0; simpl.
  2: { unfold pixel. apply Z.leb_gt in Ex0.
       rewrite (proj2 (Z.ltb_lt x 0) Ex0). now rewrite orb_true_r. }
  apply Z.leb_le in Ex0.
  destruct (x <? Z.of_nat nx)%Z eqn:Ex1.
  - apply Z.ltb_lt in Ex1. apply pixel_uniform; lia.
  - apply Z.ltb_ge in Ex1. unfold pixel, uniform_image.
    destruct ((y <? 0)%Z || (x <? 0)%Z); [reflexivity|].
    rewrite nth_error_repeat by lia.
    apply nth_error_None. rewrite repeat_length. lia.
Qed.

Lemma zrange_in i n : (0 <= i < n)%Z -> In i (zrange n).
Proof.
  intros H. unfold zrange. apply in_map_iff. exists (Z.to_nat i).
  split; [lia|]. apply in_seq. lia.
Qed.

Lemma box_values_uniform_pattern m ny nx v :
  box_values m (uniform_image ny nx v) nan
  = map (map (fun b : bool => if b then v else nan)) (box_on_image m ny nx).
Proof.
  unfold box_values, box_on_image. rewrite map_map.
  apply map_ext. intros i. rewrite map_map. apply map_ext. intros j.
  rewrite pixel_uniform_on_image. now destruct (on_image ny nx _ _).
Qed.

Lemma box_on_image_some m ny nx :
  0 < ny -> 0 < nx ->
  (ixmin (bbox m) < ixmax (bbox m))%Z -> (iymin (bbox m) < iymax (bbox m))%Z ->
  no_overlap m (Z.of_nat ny, Z.of_nat nx) = false ->
  1 <= count_true (List.concat (box_on_image m ny nx)).
Proof.
  intros Hny Hnx Hx Hy Hov. unfold no_overlap in Hov. simpl in Hov.
  repeat (apply orb_false_iff in Hov; destruct Hov as [Hov ?]).
  assert (Hin : In true (List.concat (box_on_image m ny nx))).
  { apply in_concat.
    exists (map (fun j => on_image ny nx (iymin (bbox m) + Z.max 0 (- iymin (bbox m)))
                                   (ixmin (bbox m) + j))
                (zrange (snd (mask_shape m)))).
    split.
    - unfold box_on_image.
      apply (in_map (fun i => map (fun j => on_image ny nx (iymin (bbox m) + i)
                                                     (ixmin (bbox m) + j))
                                  (zrange (snd (mask_shape m))))).
      apply zrange_in. unfold mask_shape. simpl. lia.
    - apply in_map_iff. exists (Z.max 0 (- ixmin (bbox m))). split.
      + unfold on_image. repeat (apply andb_true_iff; split);
          first [apply Z.leb_le | apply Z.ltb_lt]; lia.
      + apply zrange_in. unfold mask_shape. simpl. lia. }
  unfold count_true.
  assert (Hf : In true (filter (fun b : bool => b) (List.concat (box_on_image m ny nx))))
    by (apply filter_In; split; [assumption | reflexivity]).
  destruct (filter (fun b : bool => b) (List.concat (box_on_image m ny nx)));
    [destruct Hf | simpl; lia].
Qed.

Lemma nanmean_array_pattern np_sum v (pattern : list (list bool)) :
  is_nan v = false ->
  nanmean_array np_sum (map (map (fun b : bool => if b then v else nan)) pattern)
  = (np_sum (copies_and_zeros v (List.concat pattern))
     / count_to_float (count_true (List.concat pattern)))%float.
Proof.
  intros Hv. unfold nanmean_array, copies_and_zeros, count_true.
  rewrite <- concat_map, map_map, filter_map, length_map.
  f_equal.
  - f_equal. apply map_ext. intros [|]; [now rewrite Hv | reflexivity].
  - f_equal. f_equal. apply filter_ext. intros [|]; unfold not_nan;
      [now rewrite Hv | reflexivity].
Qed.

Lemma nanmean_array_pattern_nan np_sum v (pattern : list (list bool)) :
  (forall n, np_sum (repeat 0%float n) = 0%float) ->
  is_nan v = true ->
  nanmean_array np_sum (map (map (fun b : bool => if b then v else nan)) pattern) = nan.
Proof.
  intros Hzero Hv. apply nanmean_array_all_nan; [assumption|].
  intros x Hx. rewrite <- concat_map in Hx. apply in_map_iff in Hx.
  destruct Hx as ([|] & <- & _); [assumption | reflexivity].
Qed.

(** C8, amended.  On a cube whose every pixel holds the same value [v], with
    a region whose bounding box meets the image, the extraction returns one
    entry per slice and all entries are the same number [e].  When [v] is NaN
    so is [e].  Otherwise [e] is a binary64 mean of copies of [v]: the sum,
    as [np.sum] adds them, of [k >= 1] copies of [v] and of zeros, divided by
    [k]. *)
Theorem extract_uniform_cube_mean (Region : Type) (to_mask : Region -> RegionMask)
        (region : Region) (others : list Region) (nslices ny nx : nat) (v : float) :
  let m := to_mask region in
  0 < ny -> 0 < nx ->
  (ixmin (bbox m) < ixmax (bbox m))%Z -> (iymin (bbox m) < iymax (bbox m))%Z ->
  no_overlap m (Z.of_nat ny, Z.of_nat nx) = false ->
  exists e,
    extract_spectrum_from_region np_add_reduce Region to_mask
                                 (uniform_cube nslices ny nx v) (region :: others)
    = Ok (repeat e nslices) /\
    (is_nan v = true -> e = nan) /\
    (is_nan v = false ->
     exists pattern,
       1 <= count_true pattern /\
       e = (np_add_reduce (copies_and_zeros v pattern)
            / count_to_float (count_true pattern))%float).
Proof.
  intros m Hny Hnx Hx Hy Hov.
  assert (Hshape : image_shape (uniform_image ny nx v) = (Z.of_nat ny, Z.of_nat nx)).
  { unfold image_shape, uniform_image. rewrite repeat_length.
    destruct ny as [|ny]; [lia|]. simpl hd. now rewrite repeat_length. }
  exists (nanmean_array np_add_reduce (box_values m (uniform_image ny nx v) nan)).
  split; [|split].
  - unfold extract_spectrum_from_region, uniform_cube. fold m.
    rewrite extract_loop_overlapping.
    + simpl. now rewrite map_repeat.
    + intros img Hin. apply repeat_spec in Hin. subst img. now rewrite Hshape.
  - intros Hv. rewrite box_values_uniform_pattern.
    apply nanmean_array_pattern_nan; [exact np_add_reduce_zeros | exact Hv].
  - intros Hv. exists (List.concat (box_on_image m ny nx)). split.
    + now apply box_on_image_some.
    + rewrite box_values_uniform_pattern. now apply nanmean_array_pattern.
Qed.

Lemma extract_uniform_cube_mean_witness :
  exists e,
    extract_spectrum_from_region np_add_reduce RegionMask (fun m => m)
                                 (uniform_cube 2 3 3 0.1%float) [circle_mask]
    = Ok (repeat e 2) /\
    exists pattern,
      1 <= count_true pattern /\
      e = (np_add_reduce (copies_and_zeros 0.1%float pattern)
           / count_to_float (count_true pattern))%float.
Proof.
  destruct (extract_uniform_cube_mean RegionMask (fun m => m) circle_mask [] 2 3 3
              0.1%float)
    as (e & He & _ & Hmean); try (simpl; lia); try reflexivity.
  exists e. split; [exact He|]. apply Hmean. reflexivity.
Defined.

(** With numpy's sum, three pixels of 0.1 average to 0.10000000000000002 and
    three pixels of 1e308 to infinity, their sum being beyond the largest
    binary64 number; nine pixels of 0.1 average to 0.1. *)
Example uniform_cube_means :
  extract_spectrum_from_region np_add_reduce RegionMask (fun m => m)
                               (uniform_cube 1 1 3 0.1%float) [row_mask]
  = Ok [0.10000000000000002%float] /\
  extract_spectrum_from_region np_add_reduce RegionMask (fun m => m)
                               (uniform_cube 1 1 3 1e308%float) [row_mask]
  = Ok [infinity] /\
  extract_spectrum_from_region np_add_reduce RegionMask (fun m => m)
                               (uniform_cube 1 3 3 0.1%float) [circle_mask]
  = Ok [0.1%float].
Proof. repeat split; vm_compute; reflexivity. Qed.
